(** * cfn-stack-params-action: configuration merge, naming and build ids

    A shallow embedding of the JavaScript modules of the action
    ([parameter-merger.js], [configuration-reader.js],
    [stack-name-generator.js], [ci-build-id-generator.js] and the part of
    [main.js] that wires them), with the properties of the design
    document stated and proved over it.

    Conventions.
    - A thrown [Error] is the [Throw] branch of [result]; an [async]
      function is modelled by the value its promise settles with.
    - A JavaScript string is a [string]: its characters stand for UTF-16
      code units, restricted to the units below 256.
    - The runtime's own functions ([String.prototype.trim],
      [JSON.stringify], [String], [Math.floor], ...) are written out from
      the language standard, on the values the modules hand to them. *)

From Stdlib Require Import ZArith Ascii String DecimalString QArith Qround.
From stdpp Require Import base tactics option list strings.

Local Open Scope string_scope.

(** ** Runtime primitives *)

Module Js.

(** An [Error] object, with the extra fields that [child_process] and
    [fs] set on the errors they throw and that the handlers inspect. *)
Record error := mkErr {
  code : option string;
  signal : option string;
  killed : bool;
  status : option Z;
  message : string
}.

(** [new Error(msg)] *)
Definition Error (msg : string) : error :=
  {| code := None; signal := None; killed := false; status := None;
     message := msg |}.

Inductive result (A : Type) : Type :=
| Ok (a : A)
| Throw (e : error).
Arguments Ok {A} a.
Arguments Throw {A} e.

Definition bind {A B} (r : result A) (k : A -> result B) : result B :=
  match r with
  | Ok a => k a
  | Throw e => Throw e
  end.

(** [try { body } catch (error) { handler(error) }] *)
Definition try_catch {A} (body : result A) (handler : error -> result A)
  : result A :=
  match body with
  | Ok a => Ok a
  | Throw e => handler e
  end.

Notation "x <- r ;; k" := (bind r (fun x => k))
  (at level 100, r at next level, right associativity).
Notation "r ;;; k" := (bind r (fun _ => k))
  (at level 100, right associativity).

Definition is_Ok {A} (r : result A) : bool :=
  match r with Ok _ => true | Throw _ => false end.

(** *** Characters *)

Definition unit_of (c : ascii) : nat := nat_of_ascii c.

Definition is_upper (c : ascii) : bool :=
  (65 <=? unit_of c)%nat && (unit_of c <=? 90)%nat.
Definition is_lower (c : ascii) : bool :=
  (97 <=? unit_of c)%nat && (unit_of c <=? 122)%nat.
Definition is_digit (c : ascii) : bool :=
  (48 <=? unit_of c)%nat && (unit_of c <=? 57)%nat.
Definition is_hyphen (c : ascii) : bool := (unit_of c =? 45)%nat.

(** WhiteSpace and LineTerminator code units below 256: TAB, LF, VT, FF,
    CR, SP and NBSP. *)
Definition is_white_space (c : ascii) : bool :=
  ((9 <=? unit_of c)%nat && (unit_of c <=? 13)%nat)
  || (unit_of c =? 32)%nat || (unit_of c =? 160)%nat.

(** [toLowerCase] on one unit.  Only the ASCII letters are covered: the
    one caller lower-cases a string that holds nothing but ASCII letters,
    digits and hyphens. *)
Definition toLowerCase_unit (c : ascii) : ascii :=
  if is_upper c then ascii_of_nat (unit_of c + 32) else c.

(** *** Strings *)

Definition units (s : string) : list ascii := list_ascii_of_string s.
Definition of_units (l : list ascii) : string := string_of_list_ascii l.

Fixpoint trimStart_units (l : list ascii) : list ascii :=
  match l with
  | c :: l' => if is_white_space c then trimStart_units l' else l
  | [] => []
  end.

Fixpoint trimEnd_units (l : list ascii) : list ascii :=
  match l with
  | [] => []
  | c :: l' =>
      match trimEnd_units l' with
      | [] => if is_white_space c then [] else [c]
      | r => c :: r
      end
  end.

(** [s.trim()] *)
Definition trim (s : string) : string :=
  of_units (trimEnd_units (trimStart_units (units s))).

(** [s.includes(sub)] *)
Fixpoint includes (s sub : string) : bool :=
  String.prefix sub s
  || match s with
     | EmptyString => false
     | String _ s' => includes s' sub
     end.

(** [s.startsWith(p)] *)
Definition startsWith (s p : string) : bool := String.prefix p s.

(** [String(n)] on an integer in decimal notation (below 1e21 in absolute
    value, where the runtime switches to exponent notation). *)
Definition String_of_Z (n : Z) : string :=
  NilZero.string_of_int (Z.to_int n).

(** [String(n)] for a length or a count. *)
Definition String_of_nat (n : nat) : string := String_of_Z (Z.of_nat n).

(** [!s] for a string: only the empty string is falsy. *)
Definition falsy_string (s : string) : bool :=
  match s with EmptyString => true | _ => false end.

(** *** JSON data

    What [JSON.parse] yields and what the maps hold as property values.
    A number is an integer; an object is the list of its own enumerable
    properties in insertion order. *)
#[warnings="-register-all"] Inductive value : Type :=
| VUndefined
| VNull
| VBool (b : bool)
| VNum (n : Z)
| VStr (s : string)
| VArr (items : list value)
| VObj (props : list (string * value)).

(** [typeof v] *)
Definition typeof (v : value) : string :=
  match v with
  | VUndefined => "undefined"
  | VNull => "object"
  | VBool _ => "boolean"
  | VNum _ => "number"
  | VStr _ => "string"
  | VArr _ => "object"
  | VObj _ => "object"
  end.

(** ToBoolean: [!v] is [negb (truthy v)]. *)
Definition truthy (v : value) : bool :=
  match v with
  | VUndefined => false
  | VNull => false
  | VBool b => b
  | VNum n => negb (n =? 0)%Z
  | VStr s => negb (falsy_string s)
  | VArr _ => true
  | VObj _ => true
  end.

(** [Array.isArray(v)] *)
Definition isArray (v : value) : bool :=
  match v with VArr _ => true | _ => false end.

(** [v === null || v === undefined] *)
Definition nullish (v : value) : bool :=
  match v with VNull => true | VUndefined => true | _ => false end.

End Js.

Import Js.

(** ** stack-name-generator.js *)

Module StackNameGenerator.

(** The class [[a-zA-Z0-9-]]. *)
Definition name_unit (c : ascii) : bool :=
  is_upper c || is_lower c || is_digit c || is_hyphen c.

(** [/^[a-zA-Z0-9-]+$/.test(s)] *)
Definition validNameRegex (s : string) : bool :=
  match units s with
  | [] => false
  | l => forallb name_unit l
  end.

(** [.replace(/[^a-zA-Z0-9-]/g, '-')] *)
Definition replace_invalid (l : list ascii) : list ascii :=
  map (fun c => if name_unit c then c else "-"%char) l.

(** [.replace(/-+/g, '-')]: of every maximal run of hyphens one hyphen
    stays. *)
Fixpoint collapse_hyphens (l : list ascii) : list ascii :=
  match l with
  | [] => []
  | c :: l' =>
      match l' with
      | c' :: _ =>
          if is_hyphen c && is_hyphen c' then collapse_hyphens l'
          else c :: collapse_hyphens l'
      | [] => [c]
      end
  end.

(** [.replace(/^-+|-+$/g, '')]: the first alternative removes the run of
    hyphens at the start, the second the run at the end. *)
Fixpoint strip_leading (l : list ascii) : list ascii :=
  match l with
  | c :: l' => if is_hyphen c then strip_leading l' else l
  | [] => []
  end.

Fixpoint strip_trailing (l : list ascii) : list ascii :=
  match l with
  | [] => []
  | c :: l' =>
      match strip_trailing l' with
      | [] => if is_hyphen c then [] else [c]
      | r => c :: r
      end
  end.

Definition sanitize_units (l : list ascii) : list ascii :=
  map toLowerCase_unit
    (strip_trailing (strip_leading (collapse_hyphens (replace_invalid l)))).

Definition sanitizeBranchName (branchName : string) : result string :=
  if falsy_string branchName then
    Throw (Error "Branch name cannot be empty")
  else
    Ok (of_units (sanitize_units (units branchName))).

(** What [execSync('git rev-parse --abbrev-ref HEAD', ...)] does: it
    returns the standard output of the command, or throws. *)
Inductive exec_outcome : Type :=
| Stdout (out : string)
| ExecFails (e : error).

Definition execSync (git : exec_outcome) : result string :=
  match git with
  | Stdout out => Ok out
  | ExecFails e => Throw e
  end.

Definition code_is (e : error) (c : string) : bool :=
  match code e with Some c' => String.eqb c' c | None => false end.
Definition signal_is (e : error) (s : string) : bool :=
  match signal e with Some s' => String.eqb s' s | None => false end.
Definition status_is (e : error) (n : Z) : bool :=
  match status e with Some n' => (n' =? n)%Z | None => false end.

Definition msg_detached : string :=
  "Unable to determine current branch name. You may be in a detached HEAD state or the repository may not have any commits.".
Definition msg_branch_too_long (len : nat) : string :=
  "Branch name is too long (" +:+ String_of_nat len
  +:+ " characters). Maximum supported length is 100 characters.".
Definition msg_git_not_found : string :=
  "Git command not found. Please ensure Git is installed and available in PATH.".
Definition msg_git_timeout : string :=
  "Git command timed out. The repository may be corrupted or inaccessible.".
Definition msg_not_a_repository : string :=
  "Not a Git repository or Git repository is corrupted. Please ensure you are running this action in a valid Git repository.".
Definition msg_git_too_old : string :=
  "Invalid Git command or Git version is too old. Please ensure you have a recent version of Git installed.".
Definition msg_git_failed (m : string) : string :=
  "Failed to determine current branch name: " +:+ m
  +:+ ". Please ensure you are in a valid Git repository with at least one commit.".

Definition getCurrentBranchName (git : exec_outcome) : result string :=
  try_catch
    (out <- execSync git ;;
     let branchName := trim out in
     if falsy_string branchName || String.eqb branchName "HEAD" then
       Throw (Error msg_detached)
     else if (100 <? String.length branchName)%nat then
       Throw (Error (msg_branch_too_long (String.length branchName)))
     else Ok branchName)
    (fun error =>
       if code_is error "ENOENT" then Throw (Error msg_git_not_found)
       else if signal_is error "SIGTERM" || killed error then
         Throw (Error msg_git_timeout)
       else if status_is error 128 then Throw (Error msg_not_a_repository)
       else if status_is error 129 then Throw (Error msg_git_too_old)
       else if includes (message error)
                 "Unable to determine current branch name" then Throw error
       else if includes (message error) "Branch name is too long" then
         Throw error
       else Throw (Error (msg_git_failed (message error)))).

(** [!v || typeof v !== 'string' || v.trim() === '']: the argument when
    it passes that test, i.e. when it is a string with a character that is
    not white space. *)
Definition non_blank_string (v : value) : option string :=
  if negb (truthy v) || negb (String.eqb (typeof v) "string") then None
  else match v with
       | VStr s => if String.eqb (trim s) "" then None else Some s
       | _ => None
       end.

Definition require_string (v : value) (msg : string) : result string :=
  match non_blank_string v with
  | Some s => Ok s
  | None => Throw (Error msg)
  end.

Definition msg_too_long (what : string) (len : nat) : string :=
  what +:+ " is too long (" +:+ String_of_nat len
  +:+ " characters). Maximum length is 50 characters.".
Definition msg_invalid_chars (what : string) : string :=
  what +:+ " contains invalid characters. Only alphanumeric characters and hyphens are allowed.".
Definition msg_sanitized_empty : string :=
  "Branch name resulted in empty string after sanitization. Please use a branch name with alphanumeric characters.".
Definition msg_name_too_long (len : nat) : string :=
  "Generated stack name is too long (" +:+ String_of_nat len
  +:+ " characters). CloudFormation stack names must be 128 characters or less.".

(** [`${project}-${stackPrefix}-${suffix}`] *)
Definition compose (project stackPrefix suffix : string) : string :=
  project +:+ "-" +:+ stackPrefix +:+ "-" +:+ suffix.

Definition generateStackName (git : exec_outcome)
    (project stackPrefix isCiBuild environment : value) : result string :=
  project <- require_string project
    "Project name is required and must be a non-empty string" ;;
  stackPrefix <- require_string stackPrefix
    "Stack prefix is required and must be a non-empty string" ;;
  isCiBuild <- match isCiBuild with
               | VBool b => Ok b
               | _ => Throw (Error "CI build flag must be a boolean value")
               end ;;
  if negb (validNameRegex project) then
    Throw (Error (msg_invalid_chars "Project name"))
  else if negb (validNameRegex stackPrefix) then
    Throw (Error (msg_invalid_chars "Stack prefix"))
  else if (50 <? String.length project)%nat then
    Throw (Error (msg_too_long "Project name" (String.length project)))
  else if (50 <? String.length stackPrefix)%nat then
    Throw (Error (msg_too_long "Stack prefix" (String.length stackPrefix)))
  else
    stackName <-
      (if isCiBuild then
         branchName <- getCurrentBranchName git ;;
         sanitizedBranchName <- sanitizeBranchName branchName ;;
         if falsy_string sanitizedBranchName then
           Throw (Error msg_sanitized_empty)
         else Ok (compose project stackPrefix sanitizedBranchName)
       else
         environment <- require_string environment
           "Environment is required for non-CI build stack name generation and must be a non-empty string" ;;
         if negb (validNameRegex environment) then
           Throw (Error (msg_invalid_chars "Environment name"))
         else if (50 <? String.length environment)%nat then
           Throw (Error (msg_too_long "Environment name"
                           (String.length environment)))
         else Ok (compose project stackPrefix environment)) ;;
    if (128 <? String.length stackName)%nat then
      Throw (Error (msg_name_too_long (String.length stackName)))
    else Ok stackName.

End StackNameGenerator.

(** ** parameter-merger.js *)

Module ParameterMerger.

(** *** Objects and the store

    The maps handed to the merger are objects with an identity: the
    store holds, per location, the own enumerable properties of an object
    in insertion order.  Property values are JSON data. *)
Abbreviation object := (list (string * value)).
Abbreviation loc := nat.
Abbreviation store := (list (list (string * value))).

(** An argument of the merger: a value given literally, or a reference to
    an object of the store. *)
Inductive jsval : Type :=
| Lit (v : value)
| Ref (l : loc).

Definition js_truthy (x : jsval) : bool :=
  match x with Lit v => truthy v | Ref _ => true end.
Definition js_typeof (x : jsval) : string :=
  match x with Lit v => typeof v | Ref _ => "object" end.
Definition js_isArray (x : jsval) : bool :=
  match x with Lit v => isArray v | Ref _ => false end.
Definition is_null (x : jsval) : bool :=
  match x with Lit VNull => true | _ => false end.
Definition is_undefined (x : jsval) : bool :=
  match x with Lit VUndefined => true | _ => false end.

(** The own properties of an object argument. *)
Definition props_of (σ : store) (x : jsval) : object :=
  match x with
  | Ref l => default [] (σ !! l)
  | Lit (VObj o) => o
  | Lit _ => []
  end.

(** [Object.keys(o)] *)
Definition keys (o : object) : list string := map fst o.

Fixpoint lookup_prop (o : object) (k : string) : option value :=
  match o with
  | [] => None
  | (k', v) :: o' => if String.eqb k' k then Some v else lookup_prop o' k
  end.

(** [o[k]] *)
Definition prop (o : object) (k : string) : value :=
  default VUndefined (lookup_prop o k).

(** [o[k] = v]: an existing property keeps its place, a new one goes to
    the end. *)
Fixpoint set_prop (o : object) (k : string) (v : value) : object :=
  match o with
  | [] => [(k, v)]
  | (k', v') :: o' =>
      if String.eqb k' k then (k', v) :: o' else (k', v') :: set_prop o' k v
  end.

(** [...src] inside an object literal: the properties of [src] are set on
    the object under construction, in order. *)
Definition spread (target src : object) : object :=
  fold_left (fun o kv => set_prop o kv.1 kv.2) src target.

(** A new object is given the next free location. *)
Definition alloc (σ : store) (o : object) : jsval * store :=
  (Ref (List.length σ), (σ ++ [o])%list).

(** *** [String(v)] and [JSON.stringify(v)] *)

Definition dquote : ascii := ascii_of_nat 34.
Definition backslash : ascii := ascii_of_nat 92.

Definition hex_digit (n : nat) : ascii :=
  nth n (units "0123456789abcdef") "0"%char.

Definition quote_unit (c : ascii) : list ascii :=
  let n := unit_of c in
  if (n =? 8)%nat then [backslash; "b"%char]
  else if (n =? 9)%nat then [backslash; "t"%char]
  else if (n =? 10)%nat then [backslash; "n"%char]
  else if (n =? 12)%nat then [backslash; "f"%char]
  else if (n =? 13)%nat then [backslash; "r"%char]
  else if (n =? 34)%nat then [backslash; dquote]
  else if (n =? 92)%nat then [backslash; backslash]
  else if (n <? 32)%nat then
    [backslash; "u"%char; "0"%char; "0"%char;
     hex_digit (n / 16); hex_digit (n mod 16)]
  else [c].

(** QuoteJSONString *)
Definition quote (s : string) : string :=
  of_units ((dquote :: concat (map quote_unit (units s))) ++ [dquote])%list.

Fixpoint join (sep : string) (l : list string) : string :=
  match l with
  | [] => ""
  | [x] => x
  | x :: l' => x +:+ sep +:+ join sep l'
  end.

(** [JSON.stringify(v)]; [None] is the result [undefined]. *)
Fixpoint JSON_stringify (v : value) : option string :=
  match v with
  | VUndefined => None
  | VNull => Some "null"
  | VBool b => Some (if b then "true" else "false")
  | VNum n => Some (String_of_Z n)
  | VStr s => Some (quote s)
  | VArr items =>
      let elements :=
        (fix go (l : list value) : list string :=
           match l with
           | [] => []
           | x :: l' => default "null" (JSON_stringify x) :: go l'
           end) items in
      Some ("[" +:+ join "," elements +:+ "]")
  | VObj props =>
      let members :=
        (fix go (l : list (string * value)) : list string :=
           match l with
           | [] => []
           | (k, x) :: l' =>
               match JSON_stringify x with
               | Some t => (quote k +:+ ":" +:+ t) :: go l'
               | None => go l'
               end
           end) props in
      Some ("{" +:+ join "," members +:+ "}")
  end.

(** [String(v)] on a value that is not an object. *)
Definition String_of (v : value) : string :=
  match v with
  | VUndefined => "undefined"
  | VNull => "null"
  | VBool b => if b then "true" else "false"
  | VNum n => String_of_Z n
  | VStr s => s
  | VArr _ | VObj _ => "[object Object]"
  end.

(** [typeof value === 'object' ? JSON.stringify(value) : String(value)] *)
Definition stringValue (v : value) : option string :=
  if String.eqb (typeof v) "object" then JSON_stringify v
  else Some (String_of v).

(** [stringValue.length > limit], with the [TypeError] of reading
    [length] from [undefined]. *)
Definition check_length (v : value) (limit : nat) (too_long : nat -> string)
  : result unit :=
  match stringValue v with
  | None =>
      Throw (Error "Cannot read properties of undefined (reading 'length')")
  | Some s =>
      if (limit <? String.length s)%nat then
        Throw (Error (too_long (String.length s)))
      else Ok tt
  end.

(** *** Validation *)

(** [!x || typeof x !== 'object' || Array.isArray(x)] *)
Definition not_an_object (x : jsval) : bool :=
  negb (js_truthy x) || negb (String.eqb (js_typeof x) "object")
  || js_isArray x.

Definition alnum_unit (c : ascii) : bool :=
  is_upper c || is_lower c || is_digit c.
Definition letter_unit (c : ascii) : bool := is_upper c || is_lower c.

(** [/^[a-zA-Z][a-zA-Z0-9]*$/.test(key)] *)
Definition parameterNameRegex (key : string) : bool :=
  match units key with
  | [] => false
  | c :: l => letter_unit c && forallb alnum_unit l
  end.

(** [!key || typeof key !== 'string' || key.trim() === ''], on a key of
    [Object.keys], which is a string. *)
Definition blank_key (key : string) : bool :=
  falsy_string key || String.eqb (trim key) "".

(** The body of [for (const key of keys)] in [validateParameterObject]. *)
Fixpoint validateParameters_loop (params : object) (type : string)
    (ks : list string) : result unit :=
  match ks with
  | [] => Ok tt
  | key :: rest =>
      if blank_key key then
        Throw (Error ("Invalid " +:+ type +:+ " parameter name: '" +:+ key
          +:+ "'. Parameter names must be non-empty strings."))
      else if (255 <? String.length key)%nat then
        Throw (Error (type +:+ " parameter name '" +:+ key
          +:+ "' is too long (" +:+ String_of_nat (String.length key)
          +:+ " characters). Maximum length is 255 characters."))
      else if negb (parameterNameRegex key) then
        Throw (Error (type +:+ " parameter name '" +:+ key
          +:+ "' contains invalid characters. Parameter names must start with a letter and contain only alphanumeric characters."))
      else
        let value := prop params key in
        if nullish value then
          Throw (Error (type +:+ " parameter '" +:+ key
            +:+ "' has null or undefined value"))
        else
          check_length value 4096 (fun len =>
            type +:+ " parameter '" +:+ key +:+ "' value is too long ("
            +:+ String_of_nat len
            +:+ " characters). Maximum length is 4096 characters.") ;;;
          validateParameters_loop params type rest
  end.

Definition validateParameterObject (σ : store) (params : jsval)
    (type : string) : result unit :=
  if not_an_object params then
    Throw (Error (type +:+ " parameters must be a valid object"))
  else
    let o := props_of σ params in
    let ks := keys o in
    if (200 <? List.length ks)%nat then
      Throw (Error ("Too many " +:+ type +:+ " parameters ("
        +:+ String_of_nat (List.length ks)
        +:+ "). Maximum supported is 200 parameters."))
    else validateParameters_loop o type ks.

(** The body of [for (const key of keys)] in [validateTagsObject]. *)
Fixpoint validateTags_loop (tags : object) (type : string)
    (ks : list string) : result unit :=
  match ks with
  | [] => Ok tt
  | key :: rest =>
      if blank_key key then
        Throw (Error ("Invalid " +:+ type +:+ " tag name: '" +:+ key
          +:+ "'. Tag names must be non-empty strings."))
      else if (128 <? String.length key)%nat then
        Throw (Error (type +:+ " tag name '" +:+ key
          +:+ "' is too long (" +:+ String_of_nat (String.length key)
          +:+ " characters). Maximum length is 128 characters."))
      else
        let value := prop tags key in
        if nullish value then
          Throw (Error (type +:+ " tag '" +:+ key
            +:+ "' has null or undefined value"))
        else
          check_length value 256 (fun len =>
            type +:+ " tag '" +:+ key +:+ "' value is too long ("
            +:+ String_of_nat len
            +:+ " characters). Maximum length is 256 characters.") ;;;
          validateTags_loop tags type rest
  end.

Definition validateTagsObject (σ : store) (tags : jsval) (type : string)
  : result unit :=
  if not_an_object tags then
    Throw (Error (type +:+ " tags must be a valid object"))
  else
    let o := props_of σ tags in
    let ks := keys o in
    if (50 <? List.length ks)%nat then
      Throw (Error ("Too many " +:+ type +:+ " tags ("
        +:+ String_of_nat (List.length ks)
        +:+ "). Maximum supported is 50 tags."))
    else validateTags_loop o type ks.

(** *** Merge *)

Definition mergeParameters (defaultParams envParams : jsval) (σ : store)
  : result (jsval * store) :=
  if not_an_object defaultParams then
    Throw (Error "Default parameters must be a valid object (not an array)")
  else if negb (is_null envParams) && negb (is_undefined envParams)
          && (negb (String.eqb (js_typeof envParams) "object")
              || js_isArray envParams) then
    Throw (Error
      "Environment parameters must be a valid object (not an array) or null")
  else
    try_catch
      (if negb (js_truthy envParams)
          || negb (String.eqb (js_typeof envParams) "object") then
         Ok (alloc σ (spread [] (props_of σ defaultParams)))
       else
         validateParameterObject σ defaultParams "default" ;;;
         validateParameterObject σ envParams "environment" ;;;
         Ok (alloc σ (spread (spread [] (props_of σ defaultParams))
                        (props_of σ envParams))))
      (fun error =>
         Throw (Error ("Failed to merge parameters: " +:+ message error))).

(** *** Formatting *)

(** An element of the parameter array.  [ParameterValue] is what
    [JSON.stringify] or [String] returned; [None] is [undefined]. *)
Record CfnParameter := mkParameter {
  ParameterName : string;
  ParameterValue : option string
}.

(** An element of the tag array. *)
Record CfnTag := mkTag {
  Key : string;
  Value : option string
}.

(** [Object.entries(mergedParams).map(([key, value]) => ...)] in
    [formatForCloudFormation]: the callback runs on the entries in order
    and its first throw ends the map. *)
Fixpoint formatParameters_map (entries : object) : result (list CfnParameter) :=
  match entries with
  | [] => Ok []
  | (key, value) :: rest =>
      if blank_key key then
        Throw (Error ("Invalid parameter name: " +:+ key
          +:+ ". Parameter names must be non-empty strings."))
      else if nullish value then
        Throw (Error ("Parameter '" +:+ key
          +:+ "' has null or undefined value. All parameters must have valid values."))
      else
        let record :=
          {| ParameterName := key; ParameterValue := stringValue value |} in
        records <- formatParameters_map rest ;;
        Ok (record :: records)
  end.

Definition formatForCloudFormation (σ : store) (mergedParams : jsval)
  : result (list CfnParameter) :=
  if not_an_object mergedParams then
    Throw (Error "Merged parameters must be a valid object (not an array)")
  else
    try_catch
      (validateParameterObject σ mergedParams "merged" ;;;
       formatParameters_map (props_of σ mergedParams))
      (fun error =>
         Throw (Error ("Failed to format parameters for CloudFormation: "
           +:+ message error))).

(** The same map in [formatTagsForCloudFormation]. *)
Fixpoint formatTags_map (entries : object) : result (list CfnTag) :=
  match entries with
  | [] => Ok []
  | (key, value) :: rest =>
      if blank_key key then
        Throw (Error ("Invalid tag name: " +:+ key
          +:+ ". Tag names must be non-empty strings."))
      else if nullish value then
        Throw (Error ("Tag '" +:+ key
          +:+ "' has null or undefined value. All tags must have valid values."))
      else
        let record := {| Key := key; Value := stringValue value |} in
        records <- formatTags_map rest ;;
        Ok (record :: records)
  end.

Definition formatTagsForCloudFormation (σ : store) (mergedTags : jsval)
  : result (list CfnTag) :=
  if not_an_object mergedTags then
    Throw (Error "Merged tags must be a valid object (not an array)")
  else
    try_catch
      (validateTagsObject σ mergedTags "merged" ;;;
       formatTags_map (props_of σ mergedTags))
      (fun error =>
         Throw (Error ("Failed to format tags for CloudFormation: "
           +:+ message error))).

End ParameterMerger.

Import ParameterMerger.

(** ** configuration-reader.js *)

Module ConfigurationReader.

(** What [JSON.parse] makes of a text. *)
Inductive parse_outcome : Type :=
| SyntaxError (msg : string)
| Parsed (v : value).

(** The content of a file: its text, together with what the runtime's
    [JSON.parse] makes of that text. *)
Record content := mkContent {
  text : string;
  json : parse_outcome
}.

(** What is found at a path. *)
Inductive node : Type :=
| NoEntry
| NoAccess
| Directory
| Unreadable
| File (c : content).

Definition fs : Type := string -> node.

Definition errno (c : string) (syscall path : string) (what : string)
  : error :=
  {| code := Some c; signal := None; killed := false; status := None;
     message := c +:+ ": " +:+ what +:+ ", " +:+ syscall +:+ " '" +:+ path
                +:+ "'" |}.

(** [await fs.stat(path)], reduced to [stats.isFile()]. *)
Definition stat_isFile (disk : fs) (path : string) : result bool :=
  match disk path with
  | NoEntry => Throw (errno "ENOENT" "stat" path "no such file or directory")
  | NoAccess => Throw (errno "EACCES" "stat" path "permission denied")
  | Directory => Ok false
  | Unreadable => Ok true
  | File _ => Ok true
  end.

(** [await fs.readFile(path, 'utf8')] *)
Definition readFile (disk : fs) (path : string) : result content :=
  match disk path with
  | NoEntry => Throw (errno "ENOENT" "open" path "no such file or directory")
  | NoAccess => Throw (errno "EACCES" "open" path "permission denied")
  | Directory =>
      Throw (errno "EISDIR" "read" path "illegal operation on a directory")
  | Unreadable => Throw (errno "EACCES" "open" path "permission denied")
  | File c => Ok c
  end.

Definition JSON_parse (c : content) : result value :=
  match json c with
  | SyntaxError msg => Throw (Error msg)
  | Parsed v => Ok v
  end.

(** [path.join(a, b, c)] on segments that need no normalisation. *)
Definition path_join (a b c : string) : string :=
  a +:+ "/" +:+ b +:+ "/" +:+ c.

(** [!folderPath || typeof folderPath !== 'string'] fails: the argument
    is a non-empty string. *)
Definition folder_string (folderPath : value) : option string :=
  if negb (truthy folderPath)
     || negb (String.eqb (typeof folderPath) "string") then None
  else match folderPath with VStr s => Some s | _ => None end.

(** [!v || typeof v !== 'object' || Array.isArray(v)] *)
Definition not_a_json_object (v : value) : bool :=
  negb (truthy v) || negb (String.eqb (typeof v) "object") || isArray v.

Definition code_is (e : error) (c : string) : bool :=
  match code e with Some c' => String.eqb c' c | None => false end.

(** The test shared by the [catch] blocks of the four map readers. *)
Definition own_message (e : error) : bool :=
  includes (message e) "Invalid JSON format"
  || includes (message e) "must be a JSON object"
  || includes (message e) "is empty"
  || includes (message e) "must be a valid string".

(** The [try] block shared, up to its messages, by [readDefaultParameters]
    and [readDefaultTags]: [what] is ["Default parameters"] or
    ["Default tags"]. *)
Definition read_default_body (disk : fs) (what path : string)
  : result value :=
  isFile <- stat_isFile disk path ;;
  if negb isFile then
    Throw (Error (what +:+ " path exists but is not a file: " +:+ path))
  else
    c <- readFile disk path ;;
    if falsy_string (trim (text c)) then
      Throw (Error (what +:+ " file is empty: " +:+ path
        +:+ ". Expected at least an empty JSON object {}."))
    else
      parsed <- try_catch (JSON_parse c)
        (fun parseError =>
           Throw (Error ("Invalid JSON format in default.json at " +:+ path
             +:+ ": " +:+ message parseError
             +:+ ". Please check the JSON syntax."))) ;;
      if not_a_json_object parsed then
        Throw (Error (what +:+ " must be a JSON object, got "
          +:+ typeof parsed))
      else Ok parsed.

Definition readDefaultParameters (disk : fs) (folderPath : value)
  : result value :=
  match folder_string folderPath with
  | None => Throw (Error "Folder path must be a valid string")
  | Some folderPath =>
      let defaultParamsPath := path_join folderPath "params" "default.json" in
      try_catch (read_default_body disk "Default parameters" defaultParamsPath)
        (fun error =>
           if code_is error "ENOENT" then
             Throw (Error ("Default parameters file not found: "
               +:+ defaultParamsPath
               +:+ ". Please ensure the file exists in the params subdirectory."))
           else if code_is error "EACCES" then
             Throw (Error ("Permission denied accessing default parameters file: "
               +:+ defaultParamsPath +:+ ". Please check file permissions."))
           else if code_is error "EISDIR" then
             Throw (Error ("Expected file but found directory: "
               +:+ defaultParamsPath
               +:+ ". Please ensure default.json is a file, not a directory."))
           else if own_message error then Throw error
           else
             Throw (Error ("Failed to read default parameters from "
               +:+ defaultParamsPath +:+ ": " +:+ message error)))
  end.

Definition readDefaultTags (disk : fs) (folderPath : value) : result value :=
  match folder_string folderPath with
  | None => Throw (Error "Folder path must be a valid string")
  | Some folderPath =>
      let defaultTagsPath := path_join folderPath "tags" "default.json" in
      try_catch (read_default_body disk "Default tags" defaultTagsPath)
        (fun error =>
           if code_is error "ENOENT" then
             (* Tags are optional, return empty object if not found *)
             Ok (VObj [])
           else if code_is error "EACCES" then
             Throw (Error ("Permission denied accessing default tags file: "
               +:+ defaultTagsPath +:+ ". Please check file permissions."))
           else if code_is error "EISDIR" then
             Throw (Error ("Expected file but found directory: "
               +:+ defaultTagsPath
               +:+ ". Please ensure default.json is a file, not a directory."))
           else if own_message error then Throw error
           else
             Throw (Error ("Failed to read default tags from "
               +:+ defaultTagsPath +:+ ": " +:+ message error)))
  end.

(** [field in data], for a field name that [Object.prototype] does not
    define: the object has the property itself. *)
Definition has_field (data : object) (field : string) : bool :=
  match lookup_prop data field with Some _ => true | None => false end.

(** [data[field] === '']. *)
Definition is_empty_string (v : value) : bool :=
  match v with VStr EmptyString => true | _ => false end.

(** The test of [validateJsonStructure] on one field. *)
Definition field_missing (data : object) (field : string) : bool :=
  negb (has_field data field) || nullish (prop data field)
  || is_empty_string (prop data field).

Fixpoint validateJsonStructure (data : object) (requiredFields : list string)
  : result unit :=
  match requiredFields with
  | [] => Ok tt
  | field :: rest =>
      if field_missing data field then
        Throw (Error ("Missing required field: " +:+ field))
      else validateJsonStructure data rest
  end.

(** The properties of a parsed value that passed the object test. *)
Definition props (v : value) : object :=
  match v with VObj o => o | _ => [] end.

Definition requiredFields : list string :=
  ["project"; "template"; "stack-prefix"].

Definition readCloudFormationConfig (disk : fs) (folderPath : value)
  : result value :=
  match folder_string folderPath with
  | None => Throw (Error "Folder path must be a valid string")
  | Some folderPath =>
      let configPath := folderPath +:+ "/" +:+ "cloudformation.json" in
      try_catch
        (isFile <- stat_isFile disk configPath ;;
         if negb isFile then
           Throw (Error
             ("CloudFormation configuration path exists but is not a file: "
              +:+ configPath))
         else
           c <- readFile disk configPath ;;
           if falsy_string (trim (text c)) then
             Throw (Error ("CloudFormation configuration file is empty: "
               +:+ configPath))
           else
             config <- try_catch (JSON_parse c)
               (fun parseError =>
                  Throw (Error ("Invalid JSON format in cloudformation.json at "
                    +:+ configPath +:+ ": " +:+ message parseError
                    +:+ ". Please check the JSON syntax."))) ;;
             if not_a_json_object config then
               Throw (Error
                 ("CloudFormation configuration must be a JSON object, got "
                  +:+ typeof config))
             else
               validateJsonStructure (props config) requiredFields ;;;
               Ok config)
        (fun error =>
           if code_is error "ENOENT" then
             Throw (Error ("CloudFormation configuration file not found: "
               +:+ configPath
               +:+ ". Please ensure the file exists in the specified directory."))
           else if code_is error "EACCES" then
             Throw (Error
               ("Permission denied accessing CloudFormation configuration file: "
                +:+ configPath +:+ ". Please check file permissions."))
           else if code_is error "EISDIR" then
             Throw (Error ("Expected file but found directory: " +:+ configPath
               +:+ ". Please ensure cloudformation.json is a file, not a directory."))
           else if includes (message error) "Missing required field"
                   || includes (message error) "Invalid JSON format"
                   || includes (message error) "must be a JSON object"
                   || includes (message error) "is empty"
                   || includes (message error) "must be a valid string" then
             Throw error
           else
             Throw (Error ("Failed to read CloudFormation configuration from "
               +:+ configPath +:+ ": " +:+ message error)))
  end.

(** [!environment || typeof environment !== 'string' ||
    environment.trim() === ''] fails: the argument is a string with a
    character that is not white space. *)
Definition environment_string (environment : value) : option string :=
  if negb (truthy environment)
     || negb (String.eqb (typeof environment) "string") then None
  else match environment with
       | VStr s => if String.eqb (trim s) "" then None else Some s
       | _ => None
       end.

(** The [try] block shared, up to its messages, by
    [readEnvironmentParameters] and [readEnvironmentTags]: [what] is
    ["Environment parameters"] or ["Environment tags"]. *)
Definition read_environment_body (disk : fs) (what environment path : string)
  : result value :=
  isFile <- stat_isFile disk path ;;
  if negb isFile then
    Throw (Error (what +:+ " path exists but is not a file: " +:+ path))
  else
    c <- readFile disk path ;;
    if falsy_string (trim (text c)) then
      Throw (Error (what +:+ " file is empty: " +:+ path
        +:+ ". Expected at least an empty JSON object {}."))
    else
      parsed <- try_catch (JSON_parse c)
        (fun parseError =>
           Throw (Error ("Invalid JSON format in " +:+ environment
             +:+ ".json at " +:+ path +:+ ": " +:+ message parseError
             +:+ ". Please check the JSON syntax."))) ;;
      if not_a_json_object parsed then
        Throw (Error (what +:+ " must be a JSON object, got "
          +:+ typeof parsed))
      else Ok parsed.

Definition readEnvironmentParameters (disk : fs)
    (folderPath environment : value) : result value :=
  match folder_string folderPath with
  | None => Throw (Error "Folder path must be a valid string")
  | Some folderPath =>
      match environment_string environment with
      | None => Ok VNull
      | Some environment =>
          let envParamsPath :=
            path_join folderPath "params" (environment +:+ ".json") in
          try_catch
            (read_environment_body disk "Environment parameters" environment
               envParamsPath)
            (fun error =>
               if code_is error "ENOENT" then
                 (* Environment-specific file is optional *)
                 Ok VNull
               else if code_is error "EACCES" then
                 Throw (Error
                   ("Permission denied accessing environment parameters file: "
                    +:+ envParamsPath +:+ ". Please check file permissions."))
               else if code_is error "EISDIR" then
                 Throw (Error ("Expected file but found directory: "
                   +:+ envParamsPath +:+ ". Please ensure " +:+ environment
                   +:+ ".json is a file, not a directory."))
               else if own_message error then Throw error
               else
                 Throw (Error ("Failed to read environment parameters from "
                   +:+ envParamsPath +:+ ": " +:+ message error)))
      end
  end.

Definition readEnvironmentTags (disk : fs) (folderPath environment : value)
  : result value :=
  match folder_string folderPath with
  | None => Throw (Error "Folder path must be a valid string")
  | Some folderPath =>
      match environment_string environment with
      | None => Ok VNull
      | Some environment =>
          let envTagsPath :=
            path_join folderPath "tags" (environment +:+ ".json") in
          try_catch
            (read_environment_body disk "Environment tags" environment
               envTagsPath)
            (fun error =>
               if code_is error "ENOENT" then
                 (* Environment-specific tags file is optional *)
                 Ok VNull
               else if code_is error "EACCES" then
                 Throw (Error
                   ("Permission denied accessing environment tags file: "
                    +:+ envTagsPath +:+ ". Please check file permissions."))
               else if code_is error "EISDIR" then
                 Throw (Error ("Expected file but found directory: "
                   +:+ envTagsPath +:+ ". Please ensure " +:+ environment
                   +:+ ".json is a file, not a directory."))
               else if own_message error then Throw error
               else
                 Throw (Error ("Failed to read environment tags from "
                   +:+ envTagsPath +:+ ": " +:+ message error)))
      end
  end.

End ConfigurationReader.

(** ** ci-build-id-generator.js *)

Module CiBuildIdGenerator.

(** A Number: a finite one is a rational. *)
Inductive number : Type :=
| Finite (q : Q)
| NaN
| Infinity (negative : bool).

(** The argument of [generateRandomId]: left out (or [undefined]), a
    Number, or a value of another type, given by its [typeof]. *)
Inductive argument : Type :=
| Missing
| Number (x : number)
| Other (type : string).

(** [Number.isInteger(x)] *)
Definition isInteger (x : number) : bool :=
  match x with
  | Finite q => (Z.pos (Qden (Qred q)) =? 1)%Z
  | _ => false
  end.

(** The integer that a Number passing [Number.isInteger] stands for. *)
Definition integer_of (x : number) : Z :=
  match x with
  | Finite q => Qnum (Qred q)
  | _ => 0
  end.

Definition alphabet : string := "abcdefghijklmnopqrstuvwxyz".

(** [result += alphabet[randomIndex]]: an index outside the string reads
    [undefined], which is appended as text. *)
Definition letter_at (randomIndex : Z) : string :=
  if (randomIndex <? 0)%Z then "undefined"
  else match String.get (Z.to_nat randomIndex) alphabet with
       | Some c => String c EmptyString
       | None => "undefined"
       end.

(** [Math.floor(Math.random() * alphabet.length)], where [r] is what
    [Math.random()] returned. *)
Definition randomIndex_of (r : Q) : Z :=
  Qfloor (r * inject_Z (Z.of_nat (String.length alphabet))).

(** The [for] loop: [random] lists what the successive calls of
    [Math.random()] return, [pos] counts the calls made so far. *)
Fixpoint draw (random : nat -> Q) (count : nat) (pos : nat)
    (result : string) : string * nat :=
  match count with
  | O => (result, pos)
  | S count' =>
      draw random count' (S pos)
        (result +:+ letter_at (randomIndex_of (random pos)))
  end.

(** [/^[a-z]+$/.test(id)] *)
Definition lowercaseAlphabetRegex (id : string) : bool :=
  match units id with
  | [] => false
  | l => forallb is_lower l
  end.

Definition validateIdFormat (id : string) : bool :=
  if (String.length id <? 6)%nat || (10 <? String.length id)%nat then false
  else lowercaseAlphabetRegex id.

(** The default of the parameter list, [length = 8]. *)
Definition default_length (length : argument) : argument :=
  match length with
  | Missing => Number (Finite 8)
  | _ => length
  end.

Definition generateRandomId (length : argument) (random : nat -> Q)
    (pos : nat) : result string * nat :=
  match default_length length with
  | Missing =>
      (Throw (Error "Random ID length must be a number, got undefined"), pos)
  | Other type =>
      (Throw (Error ("Random ID length must be a number, got " +:+ type)),
       pos)
  | Number x =>
      if negb (isInteger x) then
        (Throw (Error "Random ID length must be an integer"), pos)
      else
        let n := integer_of x in
        if (n <? 6)%Z || (10 <? n)%Z then
          (Throw (Error
             ("Random ID length must be between 6 and 10 characters, got "
              +:+ String_of_Z n)), pos)
        else
          let '(result, pos') := draw random (Z.to_nat n) pos "" in
          if negb (validateIdFormat result) then
            (Throw (Error ("Generated ID failed validation: " +:+ result)),
             pos')
          else (Ok result, pos')
  end.

End CiBuildIdGenerator.

(** ** main.js *)

Module Main.

(** The step of [run] that merges the tags:
    [const mergedTags = parameterMerger.mergeParameters(defaultTags, envTags)]. *)
Definition run_mergeTags (defaultTags envTags : jsval) (σ : store)
  : result (jsval * store) :=
  mergeParameters defaultTags envTags σ.

(** [toLowerCase] on one unit, for every unit below 256: the ASCII
    capitals and the capitals U+00C0 to U+00DE, without the
    multiplication sign U+00D7. *)
Definition toLowerCase_any_unit (c : ascii) : ascii :=
  let n := unit_of c in
  if is_upper c
     || ((192 <=? n)%nat && (n <=? 222)%nat && negb (n =? 215)%nat)
  then ascii_of_nat (n + 32) else c.

(** [s.toLowerCase()] *)
Definition toLowerCase (s : string) : string :=
  of_units (map toLowerCase_any_unit (units s)).

Definition parseBooleanInput (input : value) : result bool :=
  if negb (truthy input) then Ok false
  else match input with
       | VStr input =>
           let normalizedInput := trim (toLowerCase input) in
           if String.eqb normalizedInput "true" then Ok true
           else if String.eqb normalizedInput "false" then Ok false
           else Throw (Error ("Invalid boolean value for ci-build: " +:+ input
                  +:+ ". Must be 'true' or 'false'"))
       | _ => Throw (Error "input.toLowerCase is not a function")
       end.

(** [/^[a-zA-Z0-9_-]+$/.test(envName)] *)
Definition environmentNameRegex (envName : string) : bool :=
  match units envName with
  | [] => false
  | l => forallb (fun c => StackNameGenerator.name_unit c
                           || (unit_of c =? 95)%nat) l
  end.

(** [validateInputs]; the result lists the warnings given with
    [core.warning]. *)
Definition validateInputs (folder : value) (isCiBuild : bool)
    (environment : value) : result (list string) :=
  match StackNameGenerator.non_blank_string folder with
  | None =>
      Throw (Error "Folder input cannot be empty and must be a valid string")
  | Some folder =>
      if includes folder ".." || includes folder "~" || startsWith folder "/"
      then
        Throw (Error
          "Folder path contains potentially unsafe characters. Use relative paths only.")
      else if (255 <? String.length folder)%nat then
        Throw (Error
          "Folder path is too long. Maximum length is 255 characters.")
      else if negb isCiBuild
              && match StackNameGenerator.non_blank_string environment with
                 | None => true
                 | Some _ => false
                 end then
        Throw (Error
          "Environment input is required when ci-build is false and must be a valid string")
      else
        (match StackNameGenerator.non_blank_string environment with
         | Some environment =>
             let envName := trim environment in
             if (100 <? String.length envName)%nat then
               Throw (Error
                 "Environment name is too long. Maximum length is 100 characters.")
             else if negb (environmentNameRegex envName) then
               Throw (Error
                 "Environment name contains invalid characters. Only alphanumeric characters, hyphens, and underscores are allowed.")
             else Ok tt
         | None => Ok tt
         end) ;;;
        if isCiBuild && truthy environment then
          match environment with
          | VStr environment =>
              if negb (String.eqb (trim environment) "") then
                Ok ["Environment input is ignored when ci-build is true"]
              else Ok []
          | _ => Throw (Error "environment.trim is not a function")
          end
        else Ok []
  end.

(** What a run depends on: the environment variables of the process,
    the disk, the answer of [git], the results of [Math.random()] in
    order, and the text of [new Date().toISOString()]. *)
Record process := mkProcess {
  env : string -> option string;
  disk : ConfigurationReader.fs;
  git : StackNameGenerator.exec_outcome;
  random : nat -> Q;
  now : string
}.

(** [process.env[name] || fallback] *)
Definition env_or (p : process) (name fallback : string) : string :=
  match env p name with
  | Some s => if falsy_string s then fallback else s
  | None => fallback
  end.

(** [target[k] = v], on an object of the store. *)
Definition set_field (σ : store) (target : jsval) (k : string) (v : value)
  : store :=
  match target with
  | Ref l =>
      match σ !! l with
      | Some o => <[l := set_prop o k v]> σ
      | None => σ
      end
  | Lit _ => σ
  end.

(** [s.split(sep)] *)
Fixpoint split_units (sep : ascii) (l : list ascii) : list (list ascii) :=
  match l with
  | [] => [[]]
  | c :: l' =>
      if Ascii.eqb c sep then [] :: split_units sep l'
      else match split_units sep l' with
           | first :: rest => (c :: first) :: rest
           | [] => [[c]]
           end
  end.

Definition split (s : string) (sep : ascii) : list string :=
  map of_units (split_units sep (units s)).

(** [x || 'unknown'], where [x] is a string or [undefined]. *)
Definition or_unknown (x : option string) : string :=
  match x with
  | Some s => if falsy_string s then "unknown" else s
  | None => "unknown"
  end.

(** What [run] has computed when it sets the outputs. *)
Record run_values := mkRunValues {
  formattedParams : list CfnParameter;
  formattedTags : list CfnTag;
  stackName : string;
  template : value
}.

(** The six tags that [run] adds to the merged tags. *)
Definition add_git_tags (p : process) (σ : store) (mergedTags : jsval)
  : store :=
  let gitCommit := env_or p "GITHUB_SHA" "unknown" in
  let gitActor := env_or p "GITHUB_ACTOR" "unknown" in
  let gitWorkflow := env_or p "GITHUB_WORKFLOW" "unknown" in
  let gitRepository := env_or p "GITHUB_REPOSITORY" "unknown" in
  let gitLastModifiedAt := now p in
  let parts := split gitRepository "/"%char in
  let gitOrg := parts !! 0 in
  let gitRepo := parts !! 1 in
  let σ := set_field σ mergedTags "GitCommit"
             (VStr (String.substring 0 8 gitCommit)) in
  let σ := set_field σ mergedTags "GitLastModifiedBy" (VStr gitActor) in
  let σ := set_field σ mergedTags "GitLastModifiedAt"
             (VStr gitLastModifiedAt) in
  let σ := set_field σ mergedTags "GitFile" (VStr gitWorkflow) in
  let σ := set_field σ mergedTags "GitOrg" (VStr (or_unknown gitOrg)) in
  set_field σ mergedTags "GitRepo" (VStr (or_unknown gitRepo)).

(** The suffix and the cut of [run] on the stack name of a CI build. *)
Definition with_build_id (stackName ciBuildId : string) : string :=
  let stackName := stackName +:+ "-" +:+ ciBuildId in
  if (128 <? String.length stackName)%nat then String.substring 0 128 stackName
  else stackName.

(** The [try] block of [run] up to the outputs; the calls of [core.info]
    are left out. *)
Definition run_try (p : process) : result run_values :=
  let folder := env_or p "INPUT_CFN_DIRECTORY" "cfn" in
  let ciBuildInput := env_or p "INPUT_CI_BUILD" "false" in
  let environment := env_or p "INPUT_ENVIRONMENT" "" in
  isCiBuild <- parseBooleanInput (VStr ciBuildInput) ;;
  validateInputs (VStr folder) isCiBuild (VStr environment) ;;;
  config <- ConfigurationReader.readCloudFormationConfig (disk p)
              (VStr folder) ;;
  defaultParams <- ConfigurationReader.readDefaultParameters (disk p)
                     (VStr folder) ;;
  envParams <- ConfigurationReader.readEnvironmentParameters (disk p)
                 (VStr folder) (VStr environment) ;;
  defaultTags <- ConfigurationReader.readDefaultTags (disk p) (VStr folder) ;;
  envTags <- ConfigurationReader.readEnvironmentTags (disk p) (VStr folder)
               (VStr environment) ;;
  ciBuildId <- (if isCiBuild then
                  fst (CiBuildIdGenerator.generateRandomId
                         CiBuildIdGenerator.Missing (random p) 0)
                else Ok "") ;;
  merged <- mergeParameters (Lit defaultParams) (Lit envParams) [] ;;
  let mergedParams := merged.1 in
  let σ :=
    if isCiBuild && negb (falsy_string ciBuildId) then
      set_field merged.2 mergedParams "CiBuildId" (VStr ("-" +:+ ciBuildId))
    else merged.2 in
  formattedParams <- formatForCloudFormation σ mergedParams ;;
  merged <- mergeParameters (Lit defaultTags) (Lit envTags) σ ;;
  let mergedTags := merged.1 in
  let σ := add_git_tags p merged.2 mergedTags in
  formattedTags <- formatTagsForCloudFormation σ mergedTags ;;
  stackName <- StackNameGenerator.generateStackName (git p)
                 (prop (ConfigurationReader.props config) "project")
                 (prop (ConfigurationReader.props config) "stack-prefix")
                 (VBool isCiBuild) (VStr environment) ;;
  let stackName :=
    if isCiBuild && negb (falsy_string ciBuildId) then
      with_build_id stackName ciBuildId
    else stackName in
  Ok {| formattedParams := formattedParams;
        formattedTags := formattedTags;
        stackName := stackName;
        template := prop (ConfigurationReader.props config) "template" |}.

Definition parameter_json (r : CfnParameter) : value :=
  VObj [("ParameterName", VStr (ParameterName r));
        ("ParameterValue",
         match ParameterValue r with Some s => VStr s | None => VUndefined end)].

Definition tag_json (r : CfnTag) : value :=
  VObj [("Key", VStr (Key r));
        ("Value", match Value r with Some s => VStr s | None => VUndefined end)].

(** How a run ends: with the outputs set by [core.setOutput], in order,
    or with the message given to [core.setFailed]. *)
Inductive run_outcome : Type :=
| Outputs (outputs : list (string * value))
| Failed (msg : string).

Definition json_text (v : value) : value :=
  match JSON_stringify v with Some s => VStr s | None => VUndefined end.

Definition run (p : process) : run_outcome :=
  match run_try p with
  | Ok v =>
      Outputs
        [("parameters", json_text (VArr (map parameter_json (formattedParams v))));
         ("stack-name", VStr (stackName v));
         ("template", template v);
         ("tags", json_text (VArr (map tag_json (formattedTags v))))]
  | Throw error => Failed ("Action failed: " +:+ message error)
  end.

End Main.

(** * Properties *)

Import StackNameGenerator ConfigurationReader CiBuildIdGenerator Main.

(** ** Branch-name sanitisation *)

Module SanitizeFacts.

(** The class [[a-z0-9-]]. *)
Definition lower_unit (c : ascii) : bool :=
  is_lower c || is_digit c || is_hyphen c.

(** [/^[a-z0-9-]*$/.test(s)] *)
Definition matches_lower (s : string) : bool := forallb lower_unit (units s).

Ltac by_cases_on c :=
  destruct c as [[|] [|] [|] [|] [|] [|] [|] [|]]; vm_compute;
  try reflexivity; try congruence; try discriminate; auto.

Lemma replaced_is_name_unit c :
  name_unit (if name_unit c then c else "-"%char) = true.
Proof. by_cases_on c. Qed.

Lemma lower_of_name_unit c :
  name_unit c = true -> lower_unit (toLowerCase_unit c) = true.
Proof. by_cases_on c. Qed.

Lemma hyphen_toLowerCase c : is_hyphen (toLowerCase_unit c) = is_hyphen c.
Proof. by_cases_on c. Qed.

Lemma toLowerCase_lower c : lower_unit c = true -> toLowerCase_unit c = c.
Proof. by_cases_on c. Qed.

Lemma lower_is_name_unit c : lower_unit c = true -> name_unit c = true.
Proof. by_cases_on c. Qed.

(** No two hyphens in a row; no hyphen in front; no hyphen at the end. *)
Fixpoint no_double (l : list ascii) : bool :=
  match l with
  | c :: l' =>
      match l' with
      | c' :: _ => negb (is_hyphen c && is_hyphen c') && no_double l'
      | [] => true
      end
  | [] => true
  end.

Definition no_lead (l : list ascii) : bool :=
  match l with c :: _ => negb (is_hyphen c) | [] => true end.

Fixpoint no_trail (l : list ascii) : bool :=
  match l with
  | [] => true
  | c :: l' =>
      match l' with
      | [] => negb (is_hyphen c)
      | _ :: _ => no_trail l'
      end
  end.

(** A sanitised name. *)
Definition clean (l : list ascii) : Prop :=
  forallb lower_unit l = true /\ no_double l = true
  /\ no_lead l = true /\ no_trail l = true.

(** *** Step 1: replacement *)

Lemma replace_invalid_valid l : forallb name_unit (replace_invalid l) = true.
Proof.
  induction l as [|c l IH]; [reflexivity|]. cbn [replace_invalid map forallb].
  rewrite replaced_is_name_unit. exact IH.
Qed.

Lemma replace_invalid_id l :
  forallb name_unit l = true -> replace_invalid l = l.
Proof.
  induction l as [|c l IH]; [reflexivity|]. cbn [replace_invalid map forallb].
  intros [Hc Hl]%andb_prop. rewrite Hc. f_equal. exact (IH Hl).
Qed.

(** *** Step 2: collapsing *)

Lemma collapse_cons c c' t :
  collapse_hyphens (c :: c' :: t) =
  if is_hyphen c && is_hyphen c' then collapse_hyphens (c' :: t)
  else c :: collapse_hyphens (c' :: t).
Proof. reflexivity. Qed.

Lemma collapse_forallb (P : ascii -> bool) l :
  forallb P l = true -> forallb P (collapse_hyphens l) = true.
Proof.
  induction l as [|c l IH]; [reflexivity|].
  intros [Hc Hl]%andb_prop. specialize (IH Hl).
  destruct l as [|c' t]; [cbn; rewrite Hc; reflexivity|].
  rewrite collapse_cons.
  destruct (is_hyphen c && is_hyphen c'); [exact IH|].
  cbn [forallb]. rewrite Hc. exact IH.
Qed.

Definition head_hyphen (l : list ascii) : bool :=
  match l with c :: _ => is_hyphen c | [] => false end.

Lemma collapse_head l : head_hyphen (collapse_hyphens l) = head_hyphen l.
Proof.
  induction l as [|c l IH]; [reflexivity|].
  destruct l as [|c' t]; [reflexivity|].
  rewrite collapse_cons.
  destruct (is_hyphen c) eqn:Hc, (is_hyphen c') eqn:Hc'; cbn [andb];
    [|reflexivity..].
  rewrite IH. cbn [head_hyphen]. congruence.
Qed.

Lemma no_double_cons c l :
  no_double (c :: l) = negb (is_hyphen c && head_hyphen l) && no_double l.
Proof.
  destruct l as [|c' t]; cbn; [|reflexivity].
  rewrite andb_false_r. reflexivity.
Qed.

Lemma collapse_no_double l : no_double (collapse_hyphens l) = true.
Proof.
  induction l as [|c l IH]; [reflexivity|].
  destruct l as [|c' t]; [reflexivity|].
  rewrite collapse_cons.
  destruct (is_hyphen c && is_hyphen c') eqn:Hcc; [exact IH|].
  rewrite no_double_cons, collapse_head, IH. cbn [head_hyphen].
  rewrite Hcc. reflexivity.
Qed.

Lemma collapse_id l : no_double l = true -> collapse_hyphens l = l.
Proof.
  induction l as [|c l IH]; [reflexivity|].
  destruct l as [|c' t]; [reflexivity|].
  rewrite collapse_cons, no_double_cons. cbn [head_hyphen].
  intros [Hcc Hl]%andb_prop. apply negb_true_iff in Hcc. rewrite Hcc.
  f_equal. exact (IH Hl).
Qed.

(** *** Step 3: stripping *)

Lemma strip_leading_forallb (P : ascii -> bool) l :
  forallb P l = true -> forallb P (strip_leading l) = true.
Proof.
  induction l as [|c l IH]; [reflexivity|]. intros H.
  cbn [strip_leading]. destruct (is_hyphen c); [|exact H].
  apply IH. cbn in H. apply andb_prop in H. tauto.
Qed.

Lemma strip_leading_no_double l :
  no_double l = true -> no_double (strip_leading l) = true.
Proof.
  induction l as [|c l IH]; [reflexivity|]. intros H.
  cbn [strip_leading]. destruct (is_hyphen c); [|exact H].
  apply IH. rewrite no_double_cons in H. apply andb_prop in H. tauto.
Qed.

Lemma strip_leading_no_lead l : no_lead (strip_leading l) = true.
Proof.
  induction l as [|c l IH]; [reflexivity|].
  cbn [strip_leading]. destruct (is_hyphen c) eqn:Hc; [exact IH|].
  cbn. rewrite Hc. reflexivity.
Qed.

Lemma strip_leading_id l : no_lead l = true -> strip_leading l = l.
Proof.
  destruct l as [|c l]; [reflexivity|]. cbn.
  intros H. apply negb_true_iff in H. rewrite H. reflexivity.
Qed.

Lemma strip_trailing_cons c l :
  strip_trailing (c :: l) =
  match strip_trailing l with
  | [] => if is_hyphen c then [] else [c]
  | r => c :: r
  end.
Proof. reflexivity. Qed.

Lemma strip_trailing_forallb (P : ascii -> bool) l :
  forallb P l = true -> forallb P (strip_trailing l) = true.
Proof.
  induction l as [|c l IH]; [reflexivity|].
  intros [Hc Hl]%andb_prop. specialize (IH Hl).
  rewrite strip_trailing_cons.
  destruct (strip_trailing l) as [|d r].
  - destruct (is_hyphen c); cbn; [reflexivity|]. rewrite Hc. reflexivity.
  - cbn [forallb]. rewrite Hc. exact IH.
Qed.

Lemma strip_trailing_head l :
  strip_trailing l <> [] -> head_hyphen (strip_trailing l) = head_hyphen l.
Proof.
  destruct l as [|c l]; [reflexivity|]. rewrite strip_trailing_cons.
  destruct (strip_trailing l) as [|d r]; [|reflexivity].
  destruct (is_hyphen c); [congruence|reflexivity].
Qed.

Lemma strip_trailing_no_double l :
  no_double l = true -> no_double (strip_trailing l) = true.
Proof.
  induction l as [|c l IH]; [reflexivity|].
  rewrite no_double_cons. intros [Hc Hl]%andb_prop. specialize (IH Hl).
  rewrite strip_trailing_cons.
  destruct (strip_trailing l) as [|d r] eqn:Hs.
  - destruct (is_hyphen c); reflexivity.
  - rewrite no_double_cons, IH, <- Hs, strip_trailing_head by congruence.
    rewrite Hc. reflexivity.
Qed.

Lemma strip_trailing_no_lead l :
  no_lead l = true -> no_lead (strip_trailing l) = true.
Proof.
  destruct l as [|c l]; [reflexivity|]. rewrite strip_trailing_cons.
  cbn [no_lead]. intros Hc.
  destruct (strip_trailing l) as [|d r]; [|exact Hc].
  apply negb_true_iff in Hc. rewrite Hc. cbn. rewrite Hc. reflexivity.
Qed.

Lemma strip_trailing_no_trail l : no_trail (strip_trailing l) = true.
Proof.
  induction l as [|c l IH]; [reflexivity|]. rewrite strip_trailing_cons.
  destruct (strip_trailing l) as [|d r].
  - destruct (is_hyphen c) eqn:Hc; cbn; [reflexivity|].
    rewrite Hc. reflexivity.
  - exact IH.
Qed.

Lemma strip_trailing_id l : no_trail l = true -> strip_trailing l = l.
Proof.
  induction l as [|c l IH]; [reflexivity|]. rewrite strip_trailing_cons.
  destruct l as [|d r].
  - cbn. intros H. apply negb_true_iff in H. rewrite H. reflexivity.
  - intros H. rewrite (IH H). reflexivity.
Qed.

(** *** Step 4: lower case *)

Lemma lower_forallb l :
  forallb name_unit l = true ->
  forallb lower_unit (map toLowerCase_unit l) = true.
Proof.
  induction l as [|c l IH]; [reflexivity|].
  intros [Hc Hl]%andb_prop. cbn [map forallb].
  rewrite (lower_of_name_unit c Hc). exact (IH Hl).
Qed.

Lemma lower_head l :
  head_hyphen (map toLowerCase_unit l) = head_hyphen l.
Proof. destruct l; [reflexivity|]. apply hyphen_toLowerCase. Qed.

Lemma lower_no_double l :
  no_double (map toLowerCase_unit l) = no_double l.
Proof.
  induction l as [|c l IH]; [reflexivity|].
  cbn [map]. rewrite !no_double_cons, lower_head, hyphen_toLowerCase, IH.
  reflexivity.
Qed.

Lemma lower_no_lead l : no_lead (map toLowerCase_unit l) = no_lead l.
Proof. destruct l; [reflexivity|]. cbn. by rewrite hyphen_toLowerCase. Qed.

Lemma lower_no_trail l : no_trail (map toLowerCase_unit l) = no_trail l.
Proof.
  induction l as [|c l IH]; [reflexivity|].
  destruct l as [|d r]; [cbn; by rewrite hyphen_toLowerCase|].
  exact IH.
Qed.

Lemma lower_id l :
  forallb lower_unit l = true -> map toLowerCase_unit l = l.
Proof.
  induction l as [|c l IH]; [reflexivity|].
  intros [Hc Hl]%andb_prop. cbn [map].
  rewrite (toLowerCase_lower c Hc), (IH Hl). reflexivity.
Qed.

Lemma forallb_lower_name l :
  forallb lower_unit l = true -> forallb name_unit l = true.
Proof.
  induction l as [|c l IH]; [reflexivity|].
  intros [Hc Hl]%andb_prop. cbn [forallb].
  rewrite (lower_is_name_unit c Hc). exact (IH Hl).
Qed.

(** *** The whole pipeline *)

Example sanitize_runs :
  sanitize_units (units "feature///fix___bug") = units "feature-fix-bug".
Proof. reflexivity. Qed.

Example sanitize_edges : sanitize_units (units "-feature-") = units "feature".
Proof. reflexivity. Qed.

Example sanitize_mixed :
  sanitize_units (units "feature/JIRA-123_fix-user@auth.issue")
  = units "feature-jira-123-fix-user-auth-issue".
Proof. reflexivity. Qed.

Lemma sanitize_units_clean l : clean (sanitize_units l).
Proof.
  unfold sanitize_units, clean.
  rewrite lower_no_double, lower_no_lead, lower_no_trail.
  pose proof (replace_invalid_valid l) as Hv.
  apply (collapse_forallb name_unit) in Hv.
  pose proof (collapse_no_double (replace_invalid l)) as Hd.
  split; [|split; [|split]].
  - apply lower_forallb, strip_trailing_forallb, strip_leading_forallb, Hv.
  - apply strip_trailing_no_double, strip_leading_no_double, Hd.
  - apply strip_trailing_no_lead, strip_leading_no_lead.
  - apply strip_trailing_no_trail.
Qed.

Lemma sanitize_units_fixed l : clean l -> sanitize_units l = l.
Proof.
  intros (Hl & Hd & Hh & Ht). unfold sanitize_units.
  rewrite replace_invalid_id by (apply forallb_lower_name, Hl).
  rewrite (collapse_id l Hd), (strip_leading_id l Hh),
    (strip_trailing_id l Ht).
  apply lower_id, Hl.
Qed.

Lemma sanitize_units_idempotent l :
  sanitize_units (sanitize_units l) = sanitize_units l.
Proof. apply sanitize_units_fixed, sanitize_units_clean. Qed.

Lemma units_of_units l : units (of_units l) = l.
Proof. apply list_ascii_of_string_of_list_ascii. Qed.

Lemma of_units_units s : of_units (units s) = s.
Proof. apply string_of_list_ascii_of_string. Qed.

Lemma falsy_string_spec s : falsy_string s = true <-> s = "".
Proof. destruct s; cbn; split; congruence. Qed.

Lemma sanitize_Ok s :
  s <> "" -> sanitizeBranchName s = Ok (of_units (sanitize_units (units s))).
Proof.
  intros Hs. unfold sanitizeBranchName.
  destruct (falsy_string s) eqn:Hf; [|reflexivity].
  apply falsy_string_spec in Hf. contradiction.
Qed.

End SanitizeFacts.

(** ** Stack names *)

Module StackNameFacts.

Import SanitizeFacts.

(** A component that passes the checks of [generateStackName]: it matches
    [^[a-zA-Z0-9-]+$] and has at most 50 characters. *)
Definition valid_component (s : string) : bool :=
  validNameRegex s && (String.length s <=? 50)%nat.

Lemma name_unit_not_space c : name_unit c = true -> is_white_space c = false.
Proof. by_cases_on c. Qed.

Lemma trimStart_id l :
  forallb name_unit l = true -> trimStart_units l = l.
Proof.
  destruct l as [|c l]; [reflexivity|]. intros [Hc _]%andb_prop.
  cbn. rewrite (name_unit_not_space c Hc). reflexivity.
Qed.

Lemma trimEnd_id l :
  forallb name_unit l = true -> trimEnd_units l = l.
Proof.
  induction l as [|c l IH]; [reflexivity|]. intros [Hc Hl]%andb_prop.
  cbn [trimEnd_units]. rewrite (IH Hl).
  destruct l; [|reflexivity]. rewrite (name_unit_not_space c Hc). reflexivity.
Qed.

Lemma validNameRegex_units s :
  validNameRegex s = true -> s <> "" /\ forallb name_unit (units s) = true.
Proof.
  unfold validNameRegex. destruct s as [|c s]; [discriminate|].
  intros H. split; [discriminate|exact H].
Qed.

Lemma trim_valid s : validNameRegex s = true -> trim s = s.
Proof.
  intros [_ H]%validNameRegex_units. unfold trim.
  rewrite (trimStart_id _ H), (trimEnd_id _ H). apply of_units_units.
Qed.

Lemma require_string_valid s msg :
  validNameRegex s = true -> require_string (VStr s) msg = Ok s.
Proof.
  intros H. unfold require_string, non_blank_string.
  rewrite (trim_valid s H). destruct (validNameRegex_units s H) as [Hs _].
  destruct s as [|c s]; [congruence|]. reflexivity.
Qed.

Lemma valid_component_spec s :
  valid_component s = true ->
  validNameRegex s = true /\ (50 <? String.length s)%nat = false.
Proof.
  unfold valid_component. intros [H1 H2]%andb_prop. split; [exact H1|].
  apply Nat.leb_le in H2. apply Nat.ltb_ge. exact H2.
Qed.

(** The checks on [project] and [stackPrefix] pass; what is left is the
    branch of the mode and the length check. *)
Lemma generateStackName_valid_prefix git p sp ci env :
  valid_component p = true -> valid_component sp = true ->
  generateStackName git (VStr p) (VStr sp) (VBool ci) env =
  (stackName <-
     (if ci then
        branchName <- getCurrentBranchName git ;;
        sanitizedBranchName <- sanitizeBranchName branchName ;;
        if falsy_string sanitizedBranchName then
          Throw (Error msg_sanitized_empty)
        else Ok (compose p sp sanitizedBranchName)
      else
        environment <- require_string env
          "Environment is required for non-CI build stack name generation and must be a non-empty string" ;;
        if negb (validNameRegex environment) then
          Throw (Error (msg_invalid_chars "Environment name"))
        else if (50 <? String.length environment)%nat then
          Throw (Error (msg_too_long "Environment name"
                          (String.length environment)))
        else Ok (compose p sp environment)) ;;
   if (128 <? String.length stackName)%nat then
     Throw (Error (msg_name_too_long (String.length stackName)))
   else Ok stackName).
Proof.
  intros [Hp Hpl]%valid_component_spec [Hs Hsl]%valid_component_spec.
  unfold generateStackName.
  rewrite (require_string_valid p _ Hp), (require_string_valid sp _ Hs).
  cbn [bind]. rewrite Hp, Hs, Hpl, Hsl. reflexivity.
Qed.

(** In deployment mode the outcome is decided by the length of the
    composed name alone. *)
Lemma generateStackName_deployment git p sp env :
  valid_component p = true -> valid_component sp = true ->
  valid_component env = true ->
  generateStackName git (VStr p) (VStr sp) (VBool false) (VStr env) =
  if (128 <? String.length (compose p sp env))%nat then
    Throw (Error (msg_name_too_long (String.length (compose p sp env))))
  else Ok (compose p sp env).
Proof.
  intros Hp Hs [He Hel]%valid_component_spec.
  rewrite (generateStackName_valid_prefix git p sp false _ Hp Hs).
  rewrite (require_string_valid env _ He). cbn [bind].
  rewrite He, Hel. reflexivity.
Qed.

(** Whatever the arguments, a name that is returned has passed the last
    check of the function. *)
Lemma generateStackName_cap git project stackPrefix isCiBuild environment name :
  generateStackName git project stackPrefix isCiBuild environment = Ok name ->
  String.length name <= 128.
Proof.
  unfold generateStackName.
  destruct (require_string project _) as [p|]; [|discriminate].
  destruct (require_string stackPrefix _) as [sp|]; [|discriminate].
  destruct isCiBuild as [| |ci| | | |]; try discriminate. cbn [bind].
  repeat match goal with
         | |- (if ?b then _ else _) = _ -> _ => destruct b; try discriminate
         end.
  match goal with
  | |- bind ?x _ = _ -> _ => destruct x as [stackName|]; [|discriminate]
  end.
  cbn [bind]. destruct (128 <? String.length stackName)%nat eqn:Hlen;
    [discriminate|].
  intros [= <-]. apply Nat.ltb_ge in Hlen. exact Hlen.
Qed.

(** The errors of [getCurrentBranchName]. *)
Definition BranchResolutionFailed (e : error) : Prop :=
  message e = msg_git_not_found \/ message e = msg_git_timeout
  \/ message e = msg_not_a_repository \/ message e = msg_git_too_old
  \/ includes (message e) "Unable to determine current branch name" = true
  \/ includes (message e) "Branch name is too long" = true
  \/ exists m, message e = msg_git_failed m.

(** The lookup gives no branch: the command fails (which covers the
    time-out, where the child is killed), or it prints nothing but white
    space, or it prints [HEAD]. *)
Definition lookup_unresolved (git : exec_outcome) : Prop :=
  match git with
  | ExecFails _ => True
  | Stdout out => trim out = "" \/ trim out = "HEAD"
  end.

Lemma getCurrentBranchName_unresolved git :
  lookup_unresolved git ->
  exists e, getCurrentBranchName git = Throw e /\ BranchResolutionFailed e.
Proof.
  unfold getCurrentBranchName, BranchResolutionFailed.
  destruct git as [out|e0]; cbn [lookup_unresolved execSync bind try_catch].
  - intros [-> | ->]; cbn; eexists; (split; [reflexivity|]);
      right; right; right; right; left; reflexivity.
  - intros _.
    repeat match goal with
           | |- context [if ?b then _ else _] =>
               destruct b eqn:?; [eexists; split; [reflexivity|]; cbn; eauto 10|]
           end.
    eexists; split; [reflexivity|]. cbn. do 6 right. eauto.
Qed.

Lemma getCurrentBranchName_too_long out :
  100 < String.length (trim out) ->
  getCurrentBranchName (Stdout out) =
  Throw (Error (msg_branch_too_long (String.length (trim out)))).
Proof.
  intros Hlen. unfold getCurrentBranchName. cbn [execSync bind].
  assert (falsy_string (trim out) = false) as ->
    by (destruct (trim out); [cbn in Hlen; lia|reflexivity]).
  assert (String.eqb (trim out) "HEAD" = false) as ->.
  { apply String.eqb_neq. intros E. rewrite E in Hlen. cbn in Hlen. lia. }
  cbn [orb]. apply Nat.ltb_lt in Hlen. rewrite Hlen. cbn [try_catch].
  cbn [code_is signal_is status_is code signal status killed Error orb message].
  destruct (includes _ "Unable to determine current branch name");
    reflexivity.
Qed.

End StackNameFacts.

Module StackNameSpec.

Import SanitizeFacts StackNameFacts.

(** C2, as amended.  On every non-empty string [sanitizeBranchName]
    returns a result, the result matches [^[a-z0-9-]*$] (it may be empty),
    and sanitizing a non-empty result again returns it unchanged; an empty
    result, like every empty input, is refused with "Branch name cannot be
    empty". *)
Theorem sanitize_nonempty_total_idempotent (s : string) :
  s <> "" ->
  exists t,
    sanitizeBranchName s = Ok t
    /\ matches_lower t = true
    /\ (t <> "" -> sanitizeBranchName t = Ok t)
    /\ (t = "" ->
        sanitizeBranchName t = Throw (Error "Branch name cannot be empty")).
Proof.
  intros Hs. exists (of_units (sanitize_units (units s))).
  destruct (sanitize_units_clean (units s)) as (Hl & _).
  split; [exact (sanitize_Ok s Hs)|]. split; [|split].
  - unfold matches_lower. rewrite units_of_units. exact Hl.
  - intros Ht. rewrite (sanitize_Ok _ Ht), units_of_units,
      sanitize_units_idempotent. reflexivity.
  - intros ->. reflexivity.
Qed.

Lemma sanitize_nonempty_total_idempotent_witness :
  exists t,
    sanitizeBranchName "feature///fix___bug" = Ok t
    /\ matches_lower t = true
    /\ (t <> "" -> sanitizeBranchName t = Ok t)
    /\ (t = "" ->
        sanitizeBranchName t = Throw (Error "Branch name cannot be empty")).
Proof.
  apply (sanitize_nonempty_total_idempotent "feature///fix___bug").
  discriminate.
Defined.

(** C2, as stated, fails: the empty string has no sanitized form, and
    ["@@@"] sanitizes to the empty string, on which a second pass throws
    instead of returning it. *)
Lemma sanitize_total_idempotent_counterexample :
  sanitizeBranchName "" = Throw (Error "Branch name cannot be empty")
  /\ sanitizeBranchName "@@@" = Ok ""
  /\ (x <- sanitizeBranchName "@@@" ;; sanitizeBranchName x)
     <> sanitizeBranchName "@@@"
  /\ ~ (forall s, exists t,
          sanitizeBranchName s = Ok t /\ sanitizeBranchName t = Ok t).
Proof.
  split; [reflexivity|]. split; [reflexivity|]. split; [discriminate|].
  intros H. destruct (H "") as (t & Ht & _). discriminate Ht.
Qed.

(** C6.  In build mode, with a valid project and stack prefix, name
    generation throws a branch-resolution error whenever the lookup of the
    branch fails (the time-out included), prints nothing, or prints
    [HEAD] - the detached-HEAD error in the last two cases - and no name
    is returned then, whatever the other arguments are; and when the
    branch name sanitizes to the empty string, generation throws the
    sanitization error instead of falling back to a default. *)
Theorem build_mode_unresolved_branch_fails git (p sp : string) (env : value) :
  valid_component p = true -> valid_component sp = true ->
  (lookup_unresolved git ->
     (exists e,
        generateStackName git (VStr p) (VStr sp) (VBool true) env = Throw e
        /\ BranchResolutionFailed e)
     /\ (forall out, git = Stdout out ->
           generateStackName git (VStr p) (VStr sp) (VBool true) env
           = Throw (Error msg_detached))
     /\ (forall project stackPrefix environment,
           is_Ok (generateStackName git project stackPrefix (VBool true)
                    environment) = false))
  /\ (forall branch,
        getCurrentBranchName git = Ok branch ->
        sanitizeBranchName branch = Ok "" ->
        generateStackName git (VStr p) (VStr sp) (VBool true) env
        = Throw (Error msg_sanitized_empty)).
Proof.
  intros Hp Hs. rewrite (generateStackName_valid_prefix git p sp true env Hp Hs).
  split.
  - intros Hu. destruct (getCurrentBranchName_unresolved git Hu) as (e & He & Hb).
    split; [|split].
    + exists e. rewrite He. split; [reflexivity|exact Hb].
    + intros out ->. destruct Hu as [Hu|Hu];
        unfold getCurrentBranchName; cbn [execSync bind]; rewrite Hu;
        reflexivity.
    + intros project stackPrefix environment. unfold generateStackName.
      destruct (require_string project _); [|reflexivity].
      destruct (require_string stackPrefix _); [|reflexivity].
      cbn [bind].
      repeat match goal with
             | |- is_Ok (if ?b then _ else _) = _ => destruct b; [reflexivity|]
             end.
      rewrite He. reflexivity.
  - intros branch -> Hb. cbn [bind]. rewrite Hb. reflexivity.
Qed.

Lemma build_mode_unresolved_branch_fails_witness :
  (exists e,
     generateStackName (Stdout "HEAD") (VStr "myapp") (VStr "api")
       (VBool true) VUndefined = Throw e
     /\ BranchResolutionFailed e)
  /\ generateStackName (Stdout "HEAD") (VStr "myapp") (VStr "api")
       (VBool true) VUndefined = Throw (Error msg_detached)
  /\ generateStackName (Stdout "@@@") (VStr "myapp") (VStr "api")
       (VBool true) VUndefined = Throw (Error msg_sanitized_empty).
Proof.
  pose proof (build_mode_unresolved_branch_fails (Stdout "HEAD") "myapp" "api"
                VUndefined eq_refl eq_refl) as [H _].
  pose proof (build_mode_unresolved_branch_fails (Stdout "@@@") "myapp" "api"
                VUndefined eq_refl eq_refl) as [_ H'].
  destruct (H (or_intror eq_refl)) as (H1 & H2 & _).
  split; [exact H1|]. split; [exact (H2 _ eq_refl)|].
  exact (H' "@@@" eq_refl eq_refl).
Defined.

(** C8.  In deployment mode, valid components whose composition
    [project-stackPrefix-environment] is longer than 128 characters are
    refused with the name-too-long error; no name, truncated or not, is
    returned.  In either mode a name that is returned has at most 128
    characters. *)
Theorem overlong_name_rejected git (p sp env : string) :
  valid_component p = true -> valid_component sp = true ->
  valid_component env = true ->
  128 < String.length (compose p sp env) ->
  generateStackName git (VStr p) (VStr sp) (VBool false) (VStr env)
  = Throw (Error (msg_name_too_long (String.length (compose p sp env))))
  /\ (forall name,
        generateStackName git (VStr p) (VStr sp) (VBool false) (VStr env)
        <> Ok name)
  /\ (forall git' project stackPrefix isCiBuild environment name,
        generateStackName git' project stackPrefix isCiBuild environment
        = Ok name ->
        String.length name <= 128).
Proof.
  intros Hp Hs He Hlen.
  rewrite (generateStackName_deployment git p sp env Hp Hs He).
  apply Nat.ltb_lt in Hlen. rewrite Hlen.
  split; [reflexivity|]. split; [discriminate|].
  intros git' project stackPrefix isCiBuild environment name.
  apply generateStackName_cap.
Qed.

Definition fifty (c : ascii) : string := of_units (replicate 50 c).

Lemma overlong_name_rejected_witness :
  128 < String.length (compose (fifty "a") (fifty "b") (fifty "c"))
  /\ generateStackName (Stdout "main") (VStr (fifty "a")) (VStr (fifty "b"))
       (VBool false) (VStr (fifty "c"))
     = Throw (Error (msg_name_too_long 152)).
Proof.
  assert (128 < String.length (compose (fifty "a") (fifty "b") (fifty "c")))
    as Hlen by (vm_compute; lia).
  split; [exact Hlen|].
  exact (proj1 (overlong_name_rejected (Stdout "main") (fifty "a") (fifty "b")
                  (fifty "c") eq_refl eq_refl eq_refl Hlen)).
Defined.

(** C9.  In deployment mode, for valid components, the name that is
    returned is the literal composition [project-stackPrefix-environment]:
    it is returned whenever it has at most 128 characters, and nothing
    else is ever returned; no character is replaced, dropped or
    lower-cased. *)
Theorem deployment_name_is_composition git (p sp env : string) :
  valid_component p = true -> valid_component sp = true ->
  valid_component env = true ->
  (String.length (compose p sp env) <= 128 ->
   generateStackName git (VStr p) (VStr sp) (VBool false) (VStr env)
   = Ok (compose p sp env))
  /\ (forall name,
        generateStackName git (VStr p) (VStr sp) (VBool false) (VStr env)
        = Ok name ->
        name = compose p sp env).
Proof.
  intros Hp Hs He.
  rewrite (generateStackName_deployment git p sp env Hp Hs He).
  split.
  - intros Hlen. apply Nat.ltb_ge in Hlen. rewrite Hlen. reflexivity.
  - intros name. destruct (128 <? _)%nat; [discriminate|]. congruence.
Qed.

Lemma deployment_name_is_composition_witness :
  generateStackName (ExecFails (Error "no git")) (VStr "myapp") (VStr "api")
    (VBool false) (VStr "sb-prod-us-east-1")
  = Ok "myapp-api-sb-prod-us-east-1"
  /\ generateStackName (ExecFails (Error "no git")) (VStr "MyApp")
       (VStr "API--v2") (VBool false) (VStr "-Prod-")
     = Ok "MyApp-API--v2--Prod-".
Proof.
  split.
  - apply (deployment_name_is_composition (ExecFails (Error "no git"))
             "myapp" "api" "sb-prod-us-east-1" eq_refl eq_refl eq_refl).
    vm_compute. lia.
  - apply (deployment_name_is_composition (ExecFails (Error "no git"))
             "MyApp" "API--v2" "-Prod-" eq_refl eq_refl eq_refl).
    vm_compute. lia.
Defined.

(** C10.  A branch name of more than 100 characters makes
    [getCurrentBranchName] throw the branch-name-too-long error, and with
    it build-mode name generation, whatever the sanitized name and the
    composed name would have been. *)
Theorem long_branch_rejected (out p sp : string) (env : value) :
  valid_component p = true -> valid_component sp = true ->
  100 < String.length (trim out) ->
  getCurrentBranchName (Stdout out)
  = Throw (Error (msg_branch_too_long (String.length (trim out))))
  /\ generateStackName (Stdout out) (VStr p) (VStr sp) (VBool true) env
     = Throw (Error (msg_branch_too_long (String.length (trim out)))).
Proof.
  intros Hp Hs Hlen.
  rewrite (generateStackName_valid_prefix _ p sp true env Hp Hs).
  rewrite (getCurrentBranchName_too_long out Hlen). split; reflexivity.
Qed.

(** A branch of 101 characters whose sanitized form is ["x"]. *)
Definition slashes_then_x : string :=
  of_units (replicate 100 "/"%char ++ ["x"%char])%list.

Lemma long_branch_rejected_witness :
  sanitizeBranchName (trim slashes_then_x) = Ok "x"
  /\ String.length (compose "myapp" "api" "x") <= 128
  /\ generateStackName (Stdout slashes_then_x) (VStr "myapp") (VStr "api")
       (VBool true) VUndefined
     = Throw (Error (msg_branch_too_long 101)).
Proof.
  split; [reflexivity|]. split; [vm_compute; lia|].
  refine (proj2 (long_branch_rejected slashes_then_x "myapp" "api" VUndefined
                   eq_refl eq_refl _)).
  vm_compute. lia.
Defined.

End StackNameSpec.

(** ** Merging *)

Module MergeFacts.

(** An object has each of its keys once. *)
Definition wf_object (o : object) : Prop := NoDup (keys o).

Lemma lookup_prop_None o k : lookup_prop o k = None <-> k ∉ keys o.
Proof.
  induction o as [|[k' v] o IH]; cbn.
  - split; [intros _; apply not_elem_of_nil|reflexivity].
  - rewrite not_elem_of_cons. destruct (String.eqb_spec k' k) as [->|Hne].
    + split; [discriminate|]. intros [H _]. congruence.
    + rewrite IH. split; [intros H; split; [congruence|exact H]|tauto].
Qed.

Lemma lookup_set_prop_eq o k v : lookup_prop (set_prop o k v) k = Some v.
Proof.
  induction o as [|[k' v'] o IH]; cbn.
  - rewrite String.eqb_refl. reflexivity.
  - destruct (String.eqb_spec k' k) as [->|Hne]; cbn.
    + rewrite String.eqb_refl. reflexivity.
    + apply String.eqb_neq in Hne. rewrite Hne. exact IH.
Qed.

Lemma lookup_set_prop_ne o k k' v :
  k <> k' -> lookup_prop (set_prop o k v) k' = lookup_prop o k'.
Proof.
  intros Hne. induction o as [|[k0 v0] o IH]; cbn.
  - apply String.eqb_neq in Hne. rewrite Hne. reflexivity.
  - destruct (String.eqb_spec k0 k) as [->|Hne0]; cbn.
    + apply String.eqb_neq in Hne. rewrite Hne. reflexivity.
    + rewrite IH. reflexivity.
Qed.

(** In [{...target, ...src}] a key of [src] has the value [src] gives it,
    any other key the value it had. *)
Lemma lookup_spread src : forall target k,
  wf_object src ->
  lookup_prop (spread target src) k =
  match lookup_prop src k with
  | Some v => Some v
  | None => lookup_prop target k
  end.
Proof.
  unfold spread, wf_object.
  induction src as [|[k1 v1] src IH]; intros target k Hwf; [reflexivity|].
  cbn [keys map fst] in Hwf. apply NoDup_cons in Hwf as [Hk1 Hwf].
  cbn [fold_left fst snd lookup_prop]. rewrite (IH _ _ Hwf).
  destruct (String.eqb_spec k1 k) as [->|Hne].
  - apply lookup_prop_None in Hk1. rewrite Hk1. apply lookup_set_prop_eq.
  - rewrite (lookup_set_prop_ne _ _ _ _ Hne). reflexivity.
Qed.

Lemma keys_app (o1 o2 : object) :
  keys (o1 ++ o2)%list = (keys o1 ++ keys o2)%list.
Proof. apply map_app. Qed.

Lemma set_prop_fresh o k v :
  k ∉ keys o -> set_prop o k v = (o ++ [(k, v)])%list.
Proof.
  induction o as [|[k' v'] o IH]; [reflexivity|]. cbn [keys map fst].
  rewrite not_elem_of_cons. intros [Hne Hk]. cbn [set_prop].
  destruct (String.eqb_spec k' k) as [->|_]; [congruence|].
  rewrite (IH Hk). reflexivity.
Qed.

(** Spreading new keys appends them. *)
Lemma spread_fresh src : forall target,
  NoDup (keys target ++ keys src)%list ->
  spread target src = (target ++ src)%list.
Proof.
  induction src as [|[k v] src IH]; intros target Hnd.
  - cbn. by rewrite app_nil_r.
  - change (spread target ((k, v) :: src))
      with (spread (set_prop target k v) src).
    cbn [keys map fst] in Hnd.
    assert (k ∉ keys target) as Hk.
    { apply NoDup_app in Hnd as (_ & Hdisj & _). intros Hin.
      apply (Hdisj k Hin). left. }
    rewrite (set_prop_fresh _ _ _ Hk), IH.
    + by rewrite <- app_assoc.
    + rewrite keys_app. cbn [keys map fst]. by rewrite <- app_assoc.
Qed.

(** [{...o}] has the properties of [o], in the same order. *)
Lemma spread_copy o : wf_object o -> spread [] o = o.
Proof. intros Hwf. apply (spread_fresh o []). exact Hwf. Qed.

(** *** Validation, as the list of rules it enforces *)

(** The serialized value has at most [limit] characters. *)
Definition value_fits (v : value) (limit : nat) : bool :=
  match stringValue v with
  | Some s => (String.length s <=? limit)%nat
  | None => false
  end.

(** The rules for one parameter: the key is a non-blank string of at most
    255 characters matching [^[a-zA-Z][a-zA-Z0-9]*$], the value is neither
    [null] nor [undefined], and its string form has at most 4096
    characters. *)
Definition parameter_entry_ok (o : object) (key : string) : bool :=
  negb (blank_key key) && (String.length key <=? 255)%nat
  && parameterNameRegex key && negb (nullish (prop o key))
  && value_fits (prop o key) 4096.

(** The rules for one tag: the key is a non-blank string of at most 128
    characters, the value is neither [null] nor [undefined], and its
    string form has at most 256 characters. *)
Definition tag_entry_ok (o : object) (key : string) : bool :=
  negb (blank_key key) && (String.length key <=? 128)%nat
  && negb (nullish (prop o key)) && value_fits (prop o key) 256.

Definition valid_parameters (o : object) : bool :=
  (List.length (keys o) <=? 200)%nat && forallb (parameter_entry_ok o) (keys o).

Definition valid_tags (o : object) : bool :=
  (List.length (keys o) <=? 50)%nat && forallb (tag_entry_ok o) (keys o).

Lemma ltb_negb_leb n m : (n <? m)%nat = negb (m <=? n)%nat.
Proof.
  destruct (Nat.ltb_spec n m), (Nat.leb_spec m n); try reflexivity; lia.
Qed.

Lemma check_length_Ok v limit f :
  is_Ok (check_length v limit f) = value_fits v limit.
Proof.
  unfold check_length, value_fits. destruct (stringValue v) as [s|];
    [|reflexivity].
  rewrite ltb_negb_leb. destruct (String.length s <=? limit)%nat; reflexivity.
Qed.


Lemma validateParameters_loop_Ok o type ks :
  is_Ok (validateParameters_loop o type ks) = forallb (parameter_entry_ok o) ks.
Proof.
  induction ks as [|key ks IH]; [reflexivity|].
  cbn [validateParameters_loop forallb]. unfold parameter_entry_ok at 1.
  destruct (blank_key key); [reflexivity|].
  rewrite ltb_negb_leb. destruct (String.length key <=? 255)%nat; [|reflexivity].
  destruct (parameterNameRegex key); [|reflexivity].
  destruct (nullish (prop o key)); [reflexivity|]. cbn [negb andb].
  match goal with
  | |- context [check_length ?v ?l ?f] => rewrite <- (check_length_Ok v l f)
  end.
  destruct (check_length _ _ _) as [[]|]; [exact IH|reflexivity].
Qed.

Lemma validateTags_loop_Ok o type ks :
  is_Ok (validateTags_loop o type ks) = forallb (tag_entry_ok o) ks.
Proof.
  induction ks as [|key ks IH]; [reflexivity|].
  cbn [validateTags_loop forallb]. unfold tag_entry_ok at 1.
  destruct (blank_key key); [reflexivity|].
  rewrite ltb_negb_leb. destruct (String.length key <=? 128)%nat; [|reflexivity].
  destruct (nullish (prop o key)); [reflexivity|]. cbn [negb andb].
  match goal with
  | |- context [check_length ?v ?l ?f] => rewrite <- (check_length_Ok v l f)
  end.
  destruct (check_length _ _ _) as [[]|]; [exact IH|reflexivity].
Qed.

Lemma validateParameterObject_Ok σ x type :
  is_Ok (validateParameterObject σ x type) =
  negb (not_an_object x) && valid_parameters (props_of σ x).
Proof.
  unfold validateParameterObject, valid_parameters.
  destruct (not_an_object x); [reflexivity|]. cbn [negb andb].
  rewrite ltb_negb_leb.
  destruct (List.length (keys (props_of σ x)) <=? 200)%nat; [|reflexivity].
  apply validateParameters_loop_Ok.
Qed.

Lemma validateTagsObject_Ok σ x type :
  is_Ok (validateTagsObject σ x type) =
  negb (not_an_object x) && valid_tags (props_of σ x).
Proof.
  unfold validateTagsObject, valid_tags.
  destruct (not_an_object x); [reflexivity|]. cbn [negb andb].
  rewrite ltb_negb_leb.
  destruct (List.length (keys (props_of σ x)) <=? 50)%nat; [|reflexivity].
  apply validateTags_loop_Ok.
Qed.

(** [envParams] is [null] or [undefined]. *)
Definition absent (x : jsval) : bool := is_null x || is_undefined x.

(** The argument is a map: an object, and not [null], an array or a
    scalar. *)
Definition is_map (x : jsval) : bool :=
  match x with
  | Ref _ => true
  | Lit (VObj _) => true
  | Lit _ => false
  end.

Lemma not_an_object_is_map x : not_an_object x = negb (is_map x).
Proof.
  destruct x as [[| |b|n|s| |]|]; try reflexivity.
  - destruct b; reflexivity.
  - unfold not_an_object. cbn. destruct (n =? 0)%Z; reflexivity.
  - destruct s; reflexivity.
Qed.

(** The outcome of a merge with an absent override. *)
Lemma mergeParameters_absent σ d e :
  not_an_object d = false -> absent e = true ->
  mergeParameters d e σ = Ok (alloc σ (spread [] (props_of σ d))).
Proof.
  intros Hd He. unfold mergeParameters. rewrite Hd.
  destruct e as [[]|]; try discriminate He; reflexivity.
Qed.

(** The outcome of a merge of two objects. *)
Lemma mergeParameters_present σ d e :
  not_an_object d = false -> not_an_object e = false ->
  mergeParameters d e σ =
  try_catch
    (validateParameterObject σ d "default" ;;;
     validateParameterObject σ e "environment" ;;;
     Ok (alloc σ (spread (spread [] (props_of σ d)) (props_of σ e))))
    (fun error =>
       Throw (Error ("Failed to merge parameters: " +:+ message error))).
Proof.
  intros Hd He. unfold mergeParameters. rewrite Hd.
  unfold not_an_object in He.
  apply orb_false_elim in He as [He Harr].
  apply orb_false_elim in He as [Ht Hty].
  rewrite Ht, Hty, Harr. cbn [orb andb negb].
  rewrite andb_false_r. reflexivity.
Qed.

End MergeFacts.

Module MergeSpec.

Import MergeFacts.

(** C1.  Let [base] be an object of the store.  Merged with an absent
    override ([null] or [undefined]) it yields a new object, at a location
    that is not the one of [base], with the properties of [base], and
    [base] is left as it was.  Merged with an override object it
    yields - whenever the merge returns, which it does when both objects
    pass validation - a new object in which every key of the override has
    the override's value, whatever that value is, and every other key has
    the value [base] gives it; both inputs are left as they were. *)
Theorem merge_precedence (σ : store) (lb : loc) (base : object) :
  σ !! lb = Some base -> wf_object base ->
  (forall e, absent e = true ->
     mergeParameters (Ref lb) e σ = Ok (Ref (List.length σ), (σ ++ [base])%list)
     /\ Ref (List.length σ) <> Ref lb
     /\ (σ ++ [base])%list !! lb = Some base
     /\ (σ ++ [base])%list !! List.length σ = Some base)
  /\ (forall le override,
        σ !! le = Some override -> wf_object override ->
        exists merged,
          (forall k v, lookup_prop override k = Some v ->
                       lookup_prop merged k = Some v)
          /\ (forall k, lookup_prop override k = None ->
                        lookup_prop merged k = lookup_prop base k)
          /\ (validateParameterObject σ (Ref lb) "default" = Ok tt ->
              validateParameterObject σ (Ref le) "environment" = Ok tt ->
              mergeParameters (Ref lb) (Ref le) σ
              = Ok (Ref (List.length σ), (σ ++ [merged])%list))
          /\ (forall r, mergeParameters (Ref lb) (Ref le) σ = Ok r ->
                        r = (Ref (List.length σ), (σ ++ [merged])%list))
          /\ (σ ++ [merged])%list !! lb = Some base
          /\ (σ ++ [merged])%list !! le = Some override).
Proof.
  intros Hb Hwf. pose proof (lookup_lt_Some _ _ _ Hb) as Hlt. split.
  - intros e He.
    rewrite (mergeParameters_absent σ (Ref lb) e eq_refl He).
    cbn [props_of alloc]. rewrite Hb.
    change (default [] (Some base)) with base.
    rewrite (spread_copy base Hwf).
    split; [reflexivity|]. split; [intros [= E]; lia|].
    split; [rewrite lookup_app_l by exact Hlt; exact Hb|].
    rewrite lookup_app_r by reflexivity. by rewrite Nat.sub_diag.
  - intros le override Ho Hwfo.
    pose proof (lookup_lt_Some _ _ _ Ho) as Hlto.
    exists (spread base override).
    rewrite (mergeParameters_present σ (Ref lb) (Ref le) eq_refl eq_refl).
    cbn [props_of alloc]. rewrite Hb, Ho.
    change (default [] (Some base)) with base.
    change (default [] (Some override)) with override.
    rewrite (spread_copy base Hwf).
    split; [|split; [|split; [|split; [|split]]]].
    + intros k v Hk. rewrite (lookup_spread _ _ _ Hwfo), Hk. reflexivity.
    + intros k Hk. rewrite (lookup_spread _ _ _ Hwfo), Hk. reflexivity.
    + intros -> ->. reflexivity.
    + intros r.
      destruct (validateParameterObject σ (Ref lb) "default") as [[]|];
        [|discriminate].
      destruct (validateParameterObject σ (Ref le) "environment") as [[]|];
        [|discriminate].
      cbn [bind try_catch]. intros [= <-]. reflexivity.
    + rewrite lookup_app_l by exact Hlt. exact Hb.
    + rewrite lookup_app_l by exact Hlto. exact Ho.
Qed.

(** [{a: "x", b: 1}] and the override [{a: 0, c: ""}]. *)
Definition store_ab_ac : store :=
  [ [("a", VStr "x"); ("b", VNum 1)]; [("a", VNum 0); ("c", VStr "")] ].

Lemma wf_ab : wf_object [("a", VStr "x"); ("b", VNum 1)].
Proof. apply (bool_decide_unpack _). vm_compute. exact I. Defined.

Lemma wf_ac : wf_object [("a", VNum 0); ("c", VStr "")].
Proof. apply (bool_decide_unpack _). vm_compute. exact I. Defined.

Lemma merge_precedence_witness :
  mergeParameters (Ref 0) (Lit VNull) store_ab_ac
  = Ok (Ref 2, (store_ab_ac ++ [[("a", VStr "x"); ("b", VNum 1)]])%list)
  /\ (exists merged,
        mergeParameters (Ref 0) (Ref 1) store_ab_ac
        = Ok (Ref 2, (store_ab_ac ++ [merged])%list)
        /\ lookup_prop merged "a" = Some (VNum 0)
        /\ lookup_prop merged "b" = Some (VNum 1)
        /\ lookup_prop merged "c" = Some (VStr "")).
Proof.
  destruct (merge_precedence store_ab_ac 0 _ eq_refl wf_ab) as [Habs Hpre].
  split.
  - exact (proj1 (Habs (Lit VNull) eq_refl)).
  - destruct (Hpre 1 _ eq_refl wf_ac) as (merged & Ho & Hn & Hm & _).
    exists merged. split; [exact (Hm eq_refl eq_refl)|].
    split; [exact (Ho "a" _ eq_refl)|].
    split; [exact (Hn "b" eq_refl)|exact (Ho "c" _ eq_refl)].
Defined.

(** C3, as amended.  [mergeParameters] returns exactly in these cases:
    the base is an object (not [null], an array or a scalar) and either
    the override is absent - then nothing else is checked - or the
    override is an object too and both objects satisfy the parameter
    rules: at most 200 keys, every key a non-blank string of at most 255
    characters matching [^[a-zA-Z][a-zA-Z0-9]*$], every value neither
    [null] nor [undefined] and at most 4096 characters long as a string. *)
Theorem merge_validates_when_override_present (σ : store) (d e : jsval) :
  is_Ok (mergeParameters d e σ) =
  if negb (is_map d) then false
  else if absent e then true
  else is_map e
       && valid_parameters (props_of σ d) && valid_parameters (props_of σ e).
Proof.
  rewrite <- (negb_involutive (is_map e)), <- !not_an_object_is_map.
  destruct (not_an_object d) eqn:Hd.
  { unfold mergeParameters. rewrite Hd. reflexivity. }
  destruct (absent e) eqn:He.
  { rewrite (mergeParameters_absent σ d e Hd He). reflexivity. }
  destruct (not_an_object e) eqn:Hobj.
  { unfold mergeParameters. rewrite Hd.
    destruct e as [[]|]; try discriminate; reflexivity. }
  rewrite (mergeParameters_present σ d e Hd Hobj). cbn [negb andb].
  pose proof (validateParameterObject_Ok σ d "default") as H1.
  pose proof (validateParameterObject_Ok σ e "environment") as H2.
  rewrite Hd in H1. rewrite Hobj in H2. cbn [negb andb] in H1, H2.
  rewrite <- H1, <- H2.
  destruct (validateParameterObject σ d "default") as [[]|]; [|reflexivity].
  destruct (validateParameterObject σ e "environment") as [[]|]; reflexivity.
Qed.

(** C3, as stated, fails: a base map with an invalid key and a [null]
    value does not pass validation, and yet it is merged with an absent
    override without an error. *)
Lemma merge_absent_skips_validation_counterexample :
  is_Ok (validateParameterObject [[("bad-key", VNull)]] (Ref 0) "default")
  = false
  /\ mergeParameters (Ref 0) (Lit VNull) [[("bad-key", VNull)]]
     = Ok (Ref 1, [[("bad-key", VNull)]; [("bad-key", VNull)]])
  /\ mergeParameters (Ref 0) (Lit VUndefined) [[("bad-key", VNull)]]
     = Ok (Ref 1, [[("bad-key", VNull)]; [("bad-key", VNull)]]).
Proof. repeat split; reflexivity. Qed.

(** C4.  The tag maps [{"Cost-Center": "1234"}] and [{}] both pass
    [validateTagsObject], but the tag merge of [run], which calls
    [mergeParameters], rejects the first for its key: the parameter rules
    are applied to tags. *)
Theorem tag_merge_applies_parameter_rules :
  validateTagsObject [[("Cost-Center", VStr "1234")]; []] (Ref 0) "default"
  = Ok tt
  /\ validateTagsObject [[("Cost-Center", VStr "1234")]; []] (Ref 1)
       "environment" = Ok tt
  /\ run_mergeTags (Ref 0) (Ref 1) [[("Cost-Center", VStr "1234")]; []]
     = Throw (Error
         "Failed to merge parameters: default parameter name 'Cost-Center' contains invalid characters. Parameter names must start with a letter and contain only alphanumeric characters.")
  /\ is_Ok (run_mergeTags (Ref 0) (Lit VNull)
              [[("Cost-Center", VStr "1234")]; []]) = true.
Proof. repeat split; reflexivity. Qed.

End MergeSpec.

(** ** Loading the default maps *)

Module ReaderFacts.

Lemma prefix_append s t : String.prefix s (s +:+ t) = true.
Proof.
  induction s as [|c s IH]; simpl; [destruct t; reflexivity|].
  destruct (ascii_dec c c); [exact IH|congruence].
Qed.

Lemma includes_here s t : includes (s +:+ t) s = true.
Proof.
  destruct s as [|c s]; simpl.
  - destruct t; reflexivity.
  - pose proof (prefix_append (String c s) t) as H. simpl in H. rewrite H.
    reflexivity.
Qed.

Lemma includes_skip p s sub :
  includes s sub = true -> includes (p +:+ s) sub = true.
Proof.
  intros H. induction p as [|c p IH]; [exact H|].
  simpl. rewrite IH. apply orb_true_r.
Qed.

(** The failures of the design document. *)
Inductive failure : Type :=
| NotFound
| PermissionDenied
| NotAFile
| Empty
| InvalidSyntax
| NotAnObject.

(** What a required map document is, by what is found at its path: a
    failure, or the object it holds.  There is no required field: every
    object, the empty one included, is a valid document. *)
Definition taxonomy (n : node) : failure + value :=
  match n with
  | NoEntry => inl NotFound
  | NoAccess => inl PermissionDenied
  | Unreadable => inl PermissionDenied
  | Directory => inl NotAFile
  | File c =>
      if String.eqb (trim (text c)) "" then inl Empty
      else match json c with
           | SyntaxError _ => inl InvalidSyntax
           | Parsed v =>
               match v with
               | VObj _ => inr v
               | _ => inl NotAnObject
               end
           end
  end.

(** How the message of an error tells the failure. *)
Definition describes (k : failure) (e : error) : Prop :=
  match k with
  | NotFound => includes (message e) "file not found" = true
  | PermissionDenied => includes (message e) "Permission denied" = true
  | NotAFile => includes (message e) "path exists but is not a file" = true
  | Empty => includes (message e) "file is empty" = true
  | InvalidSyntax => includes (message e) "Invalid JSON format" = true
  | NotAnObject => includes (message e) "must be a JSON object" = true
  end.

Definition agrees (expected : failure + value) (r : result value) : Prop :=
  match expected with
  | inl k => exists e, r = Throw e /\ describes k e
  | inr v => r = Ok v
  end.

Lemma folder_string_nonempty f : f <> "" -> folder_string (VStr f) = Some f.
Proof. destruct f; [congruence|reflexivity]. Qed.

Lemma read_default_body_node disk what path :
  read_default_body disk what path =
  match disk path with
  | NoEntry => Throw (errno "ENOENT" "stat" path "no such file or directory")
  | NoAccess => Throw (errno "EACCES" "stat" path "permission denied")
  | Directory =>
      Throw (Error (what +:+ " path exists but is not a file: " +:+ path))
  | Unreadable => Throw (errno "EACCES" "open" path "permission denied")
  | File c =>
      if falsy_string (trim (text c)) then
        Throw (Error (what +:+ " file is empty: " +:+ path
          +:+ ". Expected at least an empty JSON object {}."))
      else
        match json c with
        | SyntaxError msg =>
            Throw (Error ("Invalid JSON format in default.json at " +:+ path
              +:+ ": " +:+ msg +:+ ". Please check the JSON syntax."))
        | Parsed v =>
            if not_a_json_object v then
              Throw (Error (what +:+ " must be a JSON object, got "
                +:+ typeof v))
            else Ok v
        end
  end.
Proof.
  unfold read_default_body, stat_isFile, readFile, JSON_parse.
  destruct (disk path) as [| | | |c]; try reflexivity.
  cbn [bind negb]. destruct (falsy_string _); [reflexivity|].
  destruct (json c); reflexivity.
Qed.

Lemma not_a_json_object_spec v :
  not_a_json_object v = match v with VObj _ => false | _ => true end.
Proof.
  destruct v as [| |[]|n|s| |]; try reflexivity.
  - unfold not_a_json_object. cbn. destruct (n =? 0)%Z; reflexivity.
  - destruct s; reflexivity.
Qed.

Lemma falsy_string_eqb s : falsy_string s = String.eqb s "".
Proof. destruct s; reflexivity. Qed.

(** The end of the shared [catch] block, on an error thrown by the [try]
    block itself: the error is thrown again, as it is or inside another
    message. *)
Lemma rethrown (e alt : error) :
  (forall sub, includes (message e) sub = true ->
               includes (message alt) sub = true) ->
  exists e',
    (if own_message e then Throw e else Throw alt) = @Throw value e'
    /\ forall sub, includes (message e) sub = true ->
                   includes (message e') sub = true.
Proof.
  intros H. destruct (own_message e).
  - exists e. split; [reflexivity|auto].
  - exists alt. split; [reflexivity|exact H].
Qed.

Ltac found := vm_compute; reflexivity.

Ltac rethrow :=
  cbn [code_is code Error];
  match goal with
  | |- context [if own_message ?e then Throw ?e else Throw ?a] =>
      let e' := fresh "e'" in
      let Hinc := fresh "Hinc" in
      destruct (rethrown e a) as (e' & -> & Hinc);
      [ intros ? ?; cbn [message Error]; do 5 apply includes_skip; assumption
      | eexists; split; [reflexivity|]; apply Hinc ]
  end.

(** Whatever is found at the path, other than nothing, the two readers
    of a default map fail or succeed by the taxonomy. *)
Lemma read_default_agrees disk what what' path on_missing :
  (what = "Default parameters" /\ what' = "default parameters")
  \/ (what = "Default tags" /\ what' = "default tags") ->
  disk path <> NoEntry ->
  agrees (taxonomy (disk path))
    (try_catch (read_default_body disk what path)
       (fun error =>
          if code_is error "ENOENT" then on_missing
          else if code_is error "EACCES" then
            Throw (Error ("Permission denied accessing " +:+ what'
              +:+ " file: " +:+ path +:+ ". Please check file permissions."))
          else if code_is error "EISDIR" then
            Throw (Error ("Expected file but found directory: " +:+ path
              +:+ ". Please ensure default.json is a file, not a directory."))
          else if own_message error then Throw error
          else
            Throw (Error ("Failed to read " +:+ what' +:+ " from " +:+ path
              +:+ ": " +:+ message error)))).
Proof.
  intros Hwhat Hnode. rewrite read_default_body_node.
  destruct (disk path) as [| | | |c] eqn:Hn; [congruence|..];
    cbn [taxonomy agrees try_catch].
  - eexists. split; [reflexivity|].
    destruct Hwhat as [[-> ->]|[-> ->]]; found.
  - rethrow. destruct Hwhat as [[-> _]|[-> _]]; found.
  - eexists. split; [reflexivity|].
    destruct Hwhat as [[-> ->]|[-> ->]]; found.
  - rewrite falsy_string_eqb. destruct (String.eqb _ ""); cbn [try_catch].
    + rethrow. destruct Hwhat as [[-> _]|[-> _]]; found.
    + destruct (json c) as [msg|v]; cbn [try_catch]; [rethrow; found|].
      rewrite not_a_json_object_spec.
      destruct v; try reflexivity; cbn [try_catch];
        rethrow; destruct Hwhat as [[-> _]|[-> _]]; found.
Qed.

End ReaderFacts.

Module ReaderSpec.

Import ReaderFacts.

(** C5, as amended.  For a folder given as a non-empty string, loading
    the default tags succeeds with the empty object when the file is
    absent; for everything else that can be found at the path it follows
    the taxonomy of the default parameters - permission denied, not a
    file, empty, invalid syntax, not an object - and returns any object it
    parses, with no required field, so that [{}] is a valid document.
    Loading the default parameters follows the taxonomy throughout, the
    absent file being the not-found failure. *)
Theorem default_tags_taxonomy (disk : fs) (f : string) :
  f <> "" ->
  (disk (path_join f "tags" "default.json") = NoEntry ->
   readDefaultTags disk (VStr f) = Ok (VObj []))
  /\ (disk (path_join f "tags" "default.json") <> NoEntry ->
      agrees (taxonomy (disk (path_join f "tags" "default.json")))
        (readDefaultTags disk (VStr f)))
  /\ agrees (taxonomy (disk (path_join f "params" "default.json")))
       (readDefaultParameters disk (VStr f)).
Proof.
  intros Hf. unfold readDefaultTags, readDefaultParameters.
  rewrite (folder_string_nonempty f Hf). split; [|split].
  - intros Hn. rewrite read_default_body_node, Hn. reflexivity.
  - intros Hn. apply (read_default_agrees disk "Default tags" "default tags");
      [right; split; reflexivity|exact Hn].
  - destruct (disk (path_join f "params" "default.json")) eqn:Hn.
    + rewrite read_default_body_node, Hn. cbn [taxonomy agrees try_catch].
      eexists. split; [reflexivity|]. vm_compute. reflexivity.
    + rewrite <- Hn.
      apply (read_default_agrees disk "Default parameters"
               "default parameters"); [left; split; reflexivity|congruence].
    + rewrite <- Hn.
      apply (read_default_agrees disk "Default parameters"
               "default parameters"); [left; split; reflexivity|congruence].
    + rewrite <- Hn.
      apply (read_default_agrees disk "Default parameters"
               "default parameters"); [left; split; reflexivity|congruence].
    + rewrite <- Hn.
      apply (read_default_agrees disk "Default parameters"
               "default parameters"); [left; split; reflexivity|congruence].
Qed.

(** A folder whose [tags/default.json] holds [{}] and whose
    [params/default.json] is absent. *)
Definition disk_empty_tags : fs :=
  fun path =>
    if String.eqb path "cfn/tags/default.json" then
      File {| text := "{}"; json := Parsed (VObj []) |}
    else NoEntry.

Lemma default_tags_taxonomy_witness :
  readDefaultTags disk_empty_tags (VStr "cfn") = Ok (VObj [])
  /\ exists e,
       readDefaultParameters disk_empty_tags (VStr "cfn") = Throw e
       /\ describes NotFound e.
Proof.
  destruct (default_tags_taxonomy disk_empty_tags "cfn") as (_ & H2 & H3);
    [discriminate|].
  split; [apply H2; discriminate|exact H3].
Defined.

(** C5, as stated, fails: with no [tags/default.json] the default tags
    load as the empty object, where the default parameters fail. *)
Lemma default_tags_absent_counterexample :
  readDefaultTags (fun _ => NoEntry) (VStr "cfn") = Ok (VObj [])
  /\ readDefaultParameters (fun _ => NoEntry) (VStr "cfn")
     = Throw (Error
         "Default parameters file not found: cfn/params/default.json. Please ensure the file exists in the params subdirectory.").
Proof. split; reflexivity. Qed.

End ReaderSpec.

(** ** Build identifiers *)

Module BuildIdFacts.





Lemma letter_at_lower (i : Z) :
  (0 <= i < 26)%Z ->
  exists c, letter_at i = String c EmptyString /\ is_lower c = true.
Proof.
  intros Hi. rewrite <- (Z2Nat.id i) by lia.
  assert (Z.to_nat i < 26) as Hn by lia. revert Hn.
  generalize (Z.to_nat i) as n. intros n Hn.
  do 26 (destruct n as [|n]; [eexists; split; reflexivity|]). lia.
Qed.



(** The arguments [generateRandomId] accepts, in the words of its
    contract: none (the default, 8), or a Number that is an integer
    between 6 and 10. *)
Definition acceptable (length : argument) : bool :=
  match length with
  | Missing => true
  | Number x =>
      isInteger x && (6 <=? integer_of x)%Z && (integer_of x <=? 10)%Z
  | Other _ => false
  end.


(** The length that is asked for. *)
Definition requested (length : argument) : Z :=
  match default_length length with
  | Number x => integer_of x
  | _ => 0
  end.



End BuildIdFacts.

Module BuildIdSpec.

Import BuildIdFacts.


(** A generator that cycles through seven values of the unit interval. *)
Definition sevenths (i : nat) : Q := Z.of_nat (i mod 7) # 7.



End BuildIdSpec.

(** ** Formatting for CloudFormation *)

Module FormatFacts.

Import MergeFacts ReaderFacts.

Local Open Scope list_scope.

(** The record made of one entry. *)
Definition parameter_of (entry : string * value) : CfnParameter :=
  {| ParameterName := entry.1; ParameterValue := stringValue entry.2 |}.

Definition tag_of (entry : string * value) : CfnTag :=
  {| Key := entry.1; Value := stringValue entry.2 |}.

Lemma wf_lookup (o : object) k v :
  wf_object o -> (k, v) ∈ o -> lookup_prop o k = Some v.
Proof.
  unfold wf_object. induction o as [|[k' v'] o IH]; intros Hwf Hin.
  - by apply elem_of_nil in Hin.
  - cbn [keys map fst] in Hwf. apply NoDup_cons in Hwf as [Hk' Hwf].
    apply elem_of_cons in Hin as [[= -> ->]|Hin]; cbn [lookup_prop].
    + by rewrite String.eqb_refl.
    + destruct (String.eqb_spec k' k) as [->|_]; [|by apply IH].
      exfalso. apply Hk'. apply list_elem_of_fmap. by exists (k, v).
Qed.

Lemma wf_prop (o : object) k v :
  wf_object o -> (k, v) ∈ o -> prop o k = v.
Proof. intros Hwf Hin. unfold prop. by rewrite (wf_lookup o k v Hwf Hin). Qed.

Lemma parameter_entry_ok_spec (o : object) key :
  parameter_entry_ok o key = true ->
  blank_key key = false /\ String.length key <= 255
  /\ parameterNameRegex key = true /\ nullish (prop o key) = false
  /\ value_fits (prop o key) 4096 = true.
Proof.
  unfold parameter_entry_ok. rewrite !andb_true_iff, !negb_true_iff.
  rewrite Nat.leb_le. tauto.
Qed.


Lemma value_fits_spec v limit :
  value_fits v limit = true ->
  exists s, stringValue v = Some s /\ String.length s <= limit.
Proof.
  unfold value_fits. destruct (stringValue v) as [s|]; [|discriminate].
  intros H%Nat.leb_le. eauto.
Qed.

(** After validation the callback of the map never throws. *)
Lemma formatParameters_map_valid (o entries : object) :
  (forall k v, (k, v) ∈ entries -> prop o k = v) ->
  forallb (parameter_entry_ok o) (keys entries) = true ->
  formatParameters_map entries = Ok (map parameter_of entries).
Proof.
  induction entries as [|[k v] entries IH]; intros Hin Hok; [reflexivity|].
  cbn [keys map fst forallb] in Hok. apply andb_prop in Hok as [Hk Hok].
  apply parameter_entry_ok_spec in Hk as (Hb & _ & _ & Hn & _).
  rewrite (Hin k v) in Hn by left.
  cbn [formatParameters_map]. rewrite Hb, Hn, IH; [reflexivity| |exact Hok].
  intros k' v' H. apply Hin. by right.
Qed.


Lemma valid_parameters_spec (o : object) :
  valid_parameters o = true ->
  List.length (keys o) <= 200
  /\ forallb (parameter_entry_ok o) (keys o) = true.
Proof.
  unfold valid_parameters. rewrite andb_true_iff, Nat.leb_le. tauto.
Qed.

Lemma valid_tags_spec (o : object) :
  valid_tags o = true ->
  List.length (keys o) <= 50 /\ forallb (tag_entry_ok o) (keys o) = true.
Proof.
  unfold valid_tags. rewrite andb_true_iff, Nat.leb_le. tauto.
Qed.

(** What [formatForCloudFormation] returns, by the rules. *)
Lemma formatForCloudFormation_eq σ x :
  wf_object (props_of σ x) ->
  (is_map x && valid_parameters (props_of σ x) = true ->
   formatForCloudFormation σ x = Ok (map parameter_of (props_of σ x)))
  /\ (is_map x && valid_parameters (props_of σ x) = false ->
      is_Ok (formatForCloudFormation σ x) = false).
Proof.
  intros Hwf. unfold formatForCloudFormation.
  pose proof (validateParameterObject_Ok σ x "merged") as Hv.
  rewrite not_an_object_is_map in *. rewrite negb_involutive in Hv.
  destruct (is_map x); cbn [negb andb] in *; [|split; [discriminate|done]].
  destruct (validateParameterObject σ x "merged") as [[]|e]; cbn in Hv;
    rewrite <- Hv; split; try done.
  intros _. cbn [bind try_catch].
  symmetry in Hv. apply valid_parameters_spec in Hv as [_ Hall].
  rewrite (formatParameters_map_valid (props_of σ x)); [reflexivity| |exact Hall].
  intros k v. by apply wf_prop.
Qed.


End FormatFacts.

Module FormatSpec.

Import MergeFacts ReaderFacts FormatFacts.

Local Open Scope list_scope.

Lemma entry_ok_of_valid (o : object) k v :
  forallb (parameter_entry_ok o) (keys o) = true -> (k, v) ∈ o ->
  parameter_entry_ok o k = true.
Proof.
  intros Hall Hin. rewrite forallb_forall in Hall. apply Hall.
  apply list_elem_of_In, list_elem_of_fmap. by exists (k, v).
Qed.


Lemma names_of_parameters (o : object) :
  map ParameterName (map parameter_of o) = keys o.
Proof. unfold keys. rewrite map_map. reflexivity. Qed.

Lemma keys_of_tags (o : object) : map Key (map tag_of o) = keys o.
Proof. unfold keys. rewrite map_map. reflexivity. Qed.



(** [{Port: 8080, Enabled: true, Subnets: ["a", "b"]}] *)
Definition store_port : store :=
  [ [("Port", VNum 8080); ("Enabled", VBool true);
     ("Subnets", VArr [VStr "a"; VStr "b"])] ].

Lemma wf_port : wf_object (props_of store_port (Ref 0)).
Proof. apply (bool_decide_unpack _). vm_compute. exact I. Defined.


(** X2.  Every record that [formatForCloudFormation] returns satisfies
    the constraints of a CloudFormation parameter: the name matches
    [^[a-zA-Z][a-zA-Z0-9]*$] and has at most 255 characters, the value is
    a string of at most 4096 characters; there are at most 200 records
    and no name occurs twice. *)
Theorem format_parameters_wire (σ : store) (x : jsval) records :
  wf_object (props_of σ x) ->
  formatForCloudFormation σ x = Ok records ->
  List.length records <= 200
  /\ NoDup (map ParameterName records)
  /\ Forall (fun r =>
       parameterNameRegex (ParameterName r) = true
       /\ String.length (ParameterName r) <= 255
       /\ exists s, ParameterValue r = Some s /\ String.length s <= 4096)
     records.
Proof.
  intros Hwf Hr. destruct (formatForCloudFormation_eq σ x Hwf) as [Hyes Hno].
  destruct (is_map x && valid_parameters (props_of σ x)) eqn:Hv;
    [|rewrite Hr in Hno; by specialize (Hno eq_refl)].
  rewrite (Hyes eq_refl) in Hr. injection Hr as <-.
  apply andb_prop in Hv as [_ Hv].
  apply valid_parameters_spec in Hv as [Hlen Hall].
  split; [by rewrite length_map, <- (length_map fst)|].
  split; [rewrite names_of_parameters; exact Hwf|].
  apply Forall_forall. intros r (entry & -> & Hin)%list_elem_of_fmap.
  destruct entry as [k v]. cbn [parameter_of ParameterName ParameterValue fst snd].
  pose proof (entry_ok_of_valid _ k v Hall Hin) as Hok.
  apply parameter_entry_ok_spec in Hok as (_ & Hk & Hre & _ & Hfit).
  rewrite (wf_prop _ k v Hwf Hin) in Hfit.
  split; [exact Hre|]. split; [exact Hk|]. by apply value_fits_spec.
Qed.

Lemma format_parameters_wire_witness :
  exists records,
    formatForCloudFormation store_port (Ref 0) = Ok records
    /\ List.length records <= 200
    /\ NoDup (map ParameterName records).
Proof.
  eexists. split; [reflexivity|].
  destruct (format_parameters_wire store_port (Ref 0) _ wf_port eq_refl)
    as (H1 & H2 & _).
  split; [exact H1|exact H2].
Defined.





End FormatSpec.

(** ** Merging and formatting together *)

Module ComposeFacts.

Import MergeFacts ReaderFacts FormatFacts.

Local Open Scope list_scope.

(** [k in o], on the list of keys. *)
Definition mem_key (ks : list string) (k : string) : bool :=
  existsb (String.eqb k) ks.

Lemma mem_key_spec ks k : mem_key ks k = true <-> k ∈ ks.
Proof.
  unfold mem_key. rewrite existsb_exists. split.
  - intros (k' & Hin & ->%String.eqb_eq). by apply list_elem_of_In.
  - intros Hin. exists k. split; [by apply list_elem_of_In|apply String.eqb_refl].
Qed.

Lemma mem_key_false ks k : mem_key ks k = false <-> k ∉ ks.
Proof.
  rewrite <- mem_key_spec. destruct (mem_key ks k); split; congruence.
Qed.

Lemma mem_key_app ks ks' k :
  mem_key (ks ++ ks') k = mem_key ks k || mem_key ks' k.
Proof. apply existsb_app. Qed.

Lemma keys_set_prop (o : object) k v :
  keys (set_prop o k v) = if mem_key (keys o) k then keys o else keys o ++ [k].
Proof.
  induction o as [|[k' v'] o IH]; [reflexivity|].
  cbn [set_prop keys map fst mem_key existsb].
  rewrite (String.eqb_sym k k').
  destruct (String.eqb k' k); [reflexivity|]. cbn [orb keys map fst].
  fold (keys (set_prop o k v)). fold (keys o). rewrite IH.
  fold (mem_key (keys o) k). destruct (mem_key (keys o) k); reflexivity.
Qed.

(** The keys of [{...target, ...src}]: those of [target], then the new
    ones of [src], each in its order. *)
Lemma keys_spread (src : object) : forall target : object,
  wf_object src ->
  keys (spread target src)
  = keys target
    ++ List.filter (fun k => negb (mem_key (keys target) k)) (keys src).
Proof.
  unfold wf_object.
  induction src as [|[k v] src IH]; intros target Hwf.
  - cbn. by rewrite app_nil_r.
  - cbn [keys map fst] in Hwf. apply NoDup_cons in Hwf as [Hk Hwf].
    change (spread target ((k, v) :: src))
      with (spread (set_prop target k v) src).
    rewrite (IH _ Hwf), keys_set_prop. cbn [keys map fst List.filter].
    fold (keys src).
    destruct (mem_key (keys target) k) eqn:Hm; cbn [negb]; [reflexivity|].
    rewrite <- app_assoc. cbn [app]. do 2 f_equal.
    apply filter_ext_in. intros k' Hin. rewrite mem_key_app.
    assert (mem_key [k] k' = false) as ->; [|by rewrite orb_false_r].
    apply mem_key_false. intros ->%list_elem_of_singleton.
    apply Hk. by apply list_elem_of_In.
Qed.

Lemma wf_spread (target src : object) :
  wf_object target -> wf_object src -> wf_object (spread target src).
Proof.
  intros Ht Hs. unfold wf_object. rewrite (keys_spread src target Hs).
  apply NoDup_app. split; [exact Ht|]. split.
  - intros k Hk Hin. apply list_elem_of_In, filter_In in Hin as [_ Hin].
    apply negb_true_iff, mem_key_false in Hin. contradiction.
  - apply NoDup_ListNoDup, List.NoDup_filter, NoDup_ListNoDup, Hs.
Qed.




Lemma props_of_alloc σ (o : object) :
  props_of (σ ++ [o]) (Ref (List.length σ)) = o.
Proof.
  cbn [props_of]. rewrite lookup_app_r by reflexivity.
  by rewrite Nat.sub_diag.
Qed.

End ComposeFacts.

Module ComposeSpec.

Import MergeFacts ReaderFacts FormatFacts ComposeFacts.

Local Open Scope list_scope.

(** X4.  A merge of two objects that returns yields an object whose keys
    are the keys of the base, in their order, followed by the keys of the
    override that the base does not have, in their order; no key occurs
    twice. *)
Theorem merge_key_order (σ : store) (lb le : loc) (base override : object) r :
  σ !! lb = Some base -> σ !! le = Some override ->
  wf_object base -> wf_object override ->
  mergeParameters (Ref lb) (Ref le) σ = Ok r ->
  exists merged,
    r = (Ref (List.length σ), σ ++ [merged])
    /\ keys merged
       = keys base
         ++ List.filter (fun k => negb (mem_key (keys base) k)) (keys override)
    /\ wf_object merged.
Proof.
  intros Hb Ho Hwb Hwo.
  rewrite (mergeParameters_present σ (Ref lb) (Ref le) eq_refl eq_refl).
  cbn [props_of alloc]. rewrite Hb, Ho.
  change (default [] (Some base)) with base.
  change (default [] (Some override)) with override.
  rewrite (spread_copy base Hwb).
  destruct (validateParameterObject σ (Ref lb) "default") as [[]|];
    [|discriminate].
  destruct (validateParameterObject σ (Ref le) "environment") as [[]|];
    [|discriminate].
  cbn [bind try_catch]. intros [= <-]. exists (spread base override).
  split; [reflexivity|]. split; [by apply keys_spread|by apply wf_spread].
Qed.

(** [{Zone: "a", Port: 1}] and the override [{Name: "n", Port: 2, Env: "p"}]. *)
Definition store_order : store :=
  [ [("Zone", VStr "a"); ("Port", VNum 1)];
    [("Name", VStr "n"); ("Port", VNum 2); ("Env", VStr "p")] ].

Lemma wf_order_base : wf_object [("Zone", VStr "a"); ("Port", VNum 1)].
Proof. apply (bool_decide_unpack _). vm_compute. exact I. Defined.

Lemma wf_order_override :
  wf_object [("Name", VStr "n"); ("Port", VNum 2); ("Env", VStr "p")].
Proof. apply (bool_decide_unpack _). vm_compute. exact I. Defined.

Lemma merge_key_order_witness :
  exists merged,
    mergeParameters (Ref 0) (Ref 1) store_order
    = Ok (Ref 2, store_order ++ [merged])
    /\ keys merged = ["Zone"; "Port"; "Name"; "Env"].
Proof.
  destruct (merge_key_order store_order 0 1 _ _ _ eq_refl eq_refl
              wf_order_base wf_order_override eq_refl)
    as (merged & [= <-] & Hk & _).
  eexists. split; [reflexivity|exact Hk].
Defined.




(** X6.  With an absent override the merge does not validate, but
    formatting its result does: merge then format returns exactly when
    the base satisfies the parameter rules. *)
Theorem absent_merge_then_format (σ : store) (lb : loc) (base : object) e :
  σ !! lb = Some base -> wf_object base -> absent e = true ->
  mergeParameters (Ref lb) e σ = Ok (Ref (List.length σ), σ ++ [base])
  /\ is_Ok (formatForCloudFormation (σ ++ [base]) (Ref (List.length σ)))
     = valid_parameters base.
Proof.
  intros Hb Hwf He.
  rewrite (mergeParameters_absent σ (Ref lb) e eq_refl He).
  cbn [props_of alloc]. rewrite Hb.
  change (default [] (Some base)) with base. rewrite (spread_copy base Hwf).
  split; [reflexivity|].
  pose proof (props_of_alloc σ base) as Hp.
  assert (wf_object (props_of (σ ++ [base]) (Ref (List.length σ)))) as Hwf'
    by (by rewrite Hp).
  destruct (formatForCloudFormation_eq _ _ Hwf') as [Hyes Hno].
  rewrite Hp in Hyes, Hno. cbn [is_map andb] in Hyes, Hno.
  destruct (valid_parameters base); [by rewrite Hyes|by apply Hno].
Qed.

Lemma wf_bad_key : wf_object [("bad-key", VNull)].
Proof. apply (bool_decide_unpack _). vm_compute. exact I. Defined.

Lemma absent_merge_then_format_witness :
  mergeParameters (Ref 0) (Lit VNull) [[("bad-key", VNull)]]
  = Ok (Ref 1, [[("bad-key", VNull)]; [("bad-key", VNull)]])
  /\ is_Ok (formatForCloudFormation
              [[("bad-key", VNull)]; [("bad-key", VNull)]] (Ref 1)) = false.
Proof.
  exact (absent_merge_then_format [[("bad-key", VNull)]] 0 _ (Lit VNull)
           eq_refl wf_bad_key eq_refl).
Defined.

End ComposeSpec.

(** ** Validation errors *)

Module ValidationSpec.

Import MergeFacts ReaderFacts FormatFacts.

Local Open Scope list_scope.

Lemma stringValue_Some v : exists s, stringValue v = Some s.
Proof. destruct v; cbn; eauto. Qed.

Ltac names_it :=
  cbn [message Error];
  repeat first [ apply includes_here | apply includes_skip ].

Lemma check_length_Throw v limit (f : nat -> string) e :
  check_length v limit f = Throw e ->
  value_fits v limit = false /\ exists len, message e = f len.
Proof.
  unfold check_length, value_fits.
  destruct (stringValue_Some v) as [s ->]. rewrite ltb_negb_leb.
  destruct (String.length s <=? limit)%nat; [discriminate|].
  intros [= <-]. split; [reflexivity|]. by eexists.
Qed.

Lemma validateParameters_loop_Throw (o : object) type ks : forall e,
  validateParameters_loop o type ks = Throw e ->
  includes (message e) type = true
  /\ exists key,
       key ∈ ks /\ parameter_entry_ok o key = false
       /\ includes (message e) key = true.
Proof.
  induction ks as [|key ks IH]; intros e; [discriminate|].
  cbn [validateParameters_loop].
  destruct (blank_key key) eqn:Hb.
  { intros [= <-]. split; [names_it|]. exists key. split; [left|].
    split; [unfold parameter_entry_ok; by rewrite Hb|names_it]. }
  rewrite ltb_negb_leb.
  destruct (String.length key <=? 255)%nat eqn:Hl; cbn [negb].
  2:{ intros [= <-]. split; [names_it|]. exists key. split; [left|].
      split; [unfold parameter_entry_ok; by rewrite Hb, Hl|names_it]. }
  destruct (parameterNameRegex key) eqn:Hr; cbn [negb].
  2:{ intros [= <-]. split; [names_it|]. exists key. split; [left|].
      split; [unfold parameter_entry_ok; by rewrite Hb, Hl, Hr|names_it]. }
  destruct (nullish (prop o key)) eqn:Hn.
  { intros [= <-]. split; [names_it|]. exists key. split; [left|].
    split; [unfold parameter_entry_ok; by rewrite Hb, Hl, Hr, Hn|names_it]. }
  destruct (check_length _ _ _) as [[]|e'] eqn:Hc; cbn [bind].
  - intros H. destruct (IH e H) as (Ht & key' & Hin & Hok & Hinc).
    split; [exact Ht|]. exists key'. split; [by right|]. split; assumption.
  - intros [= <-]. apply check_length_Throw in Hc as (Hfit & len & ->).
    split; [names_it|]. exists key. split; [left|].
    split; [unfold parameter_entry_ok; by rewrite Hb, Hl, Hr, Hn, Hfit
           |names_it].
Qed.

Lemma validateTags_loop_Throw (o : object) type ks : forall e,
  validateTags_loop o type ks = Throw e ->
  includes (message e) type = true
  /\ exists key,
       key ∈ ks /\ tag_entry_ok o key = false
       /\ includes (message e) key = true.
Proof.
  induction ks as [|key ks IH]; intros e; [discriminate|].
  cbn [validateTags_loop].
  destruct (blank_key key) eqn:Hb.
  { intros [= <-]. split; [names_it|]. exists key. split; [left|].
    split; [unfold tag_entry_ok; by rewrite Hb|names_it]. }
  rewrite ltb_negb_leb.
  destruct (String.length key <=? 128)%nat eqn:Hl; cbn [negb].
  2:{ intros [= <-]. split; [names_it|]. exists key. split; [left|].
      split; [unfold tag_entry_ok; by rewrite Hb, Hl|names_it]. }
  destruct (nullish (prop o key)) eqn:Hn.
  { intros [= <-]. split; [names_it|]. exists key. split; [left|].
    split; [unfold tag_entry_ok; by rewrite Hb, Hl, Hn|names_it]. }
  destruct (check_length _ _ _) as [[]|e'] eqn:Hc; cbn [bind].
  - intros H. destruct (IH e H) as (Ht & key' & Hin & Hok & Hinc).
    split; [exact Ht|]. exists key'. split; [by right|]. split; assumption.
  - intros [= <-]. apply check_length_Throw in Hc as (Hfit & len & ->).
    split; [names_it|]. exists key. split; [left|].
    split; [unfold tag_entry_ok; by rewrite Hb, Hl, Hn, Hfit|names_it].
Qed.

(** X7.  An error of [validateParameterObject] says what it is about:
    its message contains the [type] the caller passed, and, unless the
    argument is not a map or has more than 200 keys, it contains a key of
    the map that breaks a parameter rule. *)
Theorem parameter_error_names_key (σ : store) (x : jsval) (type : string) e :
  validateParameterObject σ x type = Throw e ->
  includes (message e) type = true
  /\ (is_map x = false
      \/ 200 < List.length (keys (props_of σ x))
      \/ exists key,
           key ∈ keys (props_of σ x)
           /\ parameter_entry_ok (props_of σ x) key = false
           /\ includes (message e) key = true).
Proof.
  unfold validateParameterObject. rewrite not_an_object_is_map.
  destruct (is_map x); cbn [negb].
  2:{ intros [= <-]. split; [names_it|]. by left. }
  destruct (Nat.ltb_spec 200 (List.length (keys (props_of σ x)))).
  { intros [= <-]. split; [names_it|]. right. by left. }
  intros Hloop. apply validateParameters_loop_Throw in Hloop as (Ht & Hkey).
  split; [exact Ht|]. right. by right.
Qed.

Lemma parameter_error_names_key_witness :
  exists e,
    validateParameterObject [[("Port", VNum 1); ("bad-key", VStr "x")]]
      (Ref 0) "environment" = Throw e
    /\ includes (message e) "environment" = true
    /\ includes (message e) "bad-key" = true.
Proof.
  eexists. split; [reflexivity|].
  destruct (parameter_error_names_key
              [[("Port", VNum 1); ("bad-key", VStr "x")]] (Ref 0)
              "environment" _ eq_refl) as [Ht _].
  split; [exact Ht|reflexivity].
Defined.

(** X8.  The same for [validateTagsObject], with the limit of 50 keys
    and the tag rules. *)
Theorem tag_error_names_key (σ : store) (x : jsval) (type : string) e :
  validateTagsObject σ x type = Throw e ->
  includes (message e) type = true
  /\ (is_map x = false
      \/ 50 < List.length (keys (props_of σ x))
      \/ exists key,
           key ∈ keys (props_of σ x)
           /\ tag_entry_ok (props_of σ x) key = false
           /\ includes (message e) key = true).
Proof.
  unfold validateTagsObject. rewrite not_an_object_is_map.
  destruct (is_map x); cbn [negb].
  2:{ intros [= <-]. split; [names_it|]. by left. }
  destruct (Nat.ltb_spec 50 (List.length (keys (props_of σ x)))).
  { intros [= <-]. split; [names_it|]. right. by left. }
  intros Hloop. apply validateTags_loop_Throw in Hloop as (Ht & Hkey).
  split; [exact Ht|]. right. by right.
Qed.

Lemma tag_error_names_key_witness :
  exists e,
    validateTagsObject [[("Team", VNull)]] (Ref 0) "default" = Throw e
    /\ includes (message e) "default" = true.
Proof.
  eexists. split; [reflexivity|].
  exact (proj1 (tag_error_names_key [[("Team", VNull)]] (Ref 0) "default" _
                  eq_refl)).
Defined.

End ValidationSpec.

(** ** The descriptor and the environment maps *)

Module DescriptorFacts.

Import MergeFacts ReaderFacts.

Local Open Scope list_scope.

Lemma validateJsonStructure_find (data : object) fields :
  validateJsonStructure data fields =
  match List.find (field_missing data) fields with
  | Some field => Throw (Error ("Missing required field: " +:+ field))
  | None => Ok tt
  end.
Proof.
  induction fields as [|field fields IH]; [reflexivity|].
  cbn [validateJsonStructure List.find].
  destruct (field_missing data field); [reflexivity|exact IH].
Qed.

(** A field that passes the test is there, with a value that is not
    [null], [undefined] or the empty string. *)
Definition field_present (data : object) (field : string) : Prop :=
  exists x, lookup_prop data field = Some x
            /\ nullish x = false /\ x <> VStr "".

Lemma field_missing_false data field :
  field_missing data field = false -> field_present data field.
Proof.
  unfold field_missing, has_field, prop, field_present.
  destruct (lookup_prop data field) as [x|]; [|discriminate].
  cbn [negb orb default from_option id]. intros H.
  apply orb_false_elim in H as [Hn He]. exists x.
  split; [reflexivity|]. split; [exact Hn|]. by intros ->.
Qed.

Lemma validateJsonStructure_Ok data fields :
  validateJsonStructure data fields = Ok tt ->
  Forall (field_present data) fields.
Proof.
  induction fields as [|field fields IH]; [constructor|].
  cbn [validateJsonStructure].
  destruct (field_missing data field) eqn:Hf; [discriminate|].
  intros H. constructor; [by apply field_missing_false|by apply IH].
Qed.

(** The [try] block of [readCloudFormationConfig], by what is found at
    the path. *)
Definition config_body (disk : fs) (configPath : string) : result value :=
  match disk configPath with
  | NoEntry =>
      Throw (errno "ENOENT" "stat" configPath "no such file or directory")
  | NoAccess => Throw (errno "EACCES" "stat" configPath "permission denied")
  | Directory =>
      Throw (Error
        ("CloudFormation configuration path exists but is not a file: "
         +:+ configPath))
  | Unreadable => Throw (errno "EACCES" "open" configPath "permission denied")
  | File c =>
      if String.eqb (trim (text c)) "" then
        Throw (Error ("CloudFormation configuration file is empty: "
          +:+ configPath))
      else
        match json c with
        | SyntaxError msg =>
            Throw (Error ("Invalid JSON format in cloudformation.json at "
              +:+ configPath +:+ ": " +:+ msg
              +:+ ". Please check the JSON syntax."))
        | Parsed (VObj o) =>
            validateJsonStructure o requiredFields ;;; Ok (VObj o)
        | Parsed v =>
            Throw (Error
              ("CloudFormation configuration must be a JSON object, got "
               +:+ typeof v))
        end
  end.

(** The [catch] block of [readCloudFormationConfig]. *)
Definition config_handler (configPath : string) (error : error)
  : result value :=
  if code_is error "ENOENT" then
    Throw (Error ("CloudFormation configuration file not found: "
      +:+ configPath
      +:+ ". Please ensure the file exists in the specified directory."))
  else if code_is error "EACCES" then
    Throw (Error
      ("Permission denied accessing CloudFormation configuration file: "
       +:+ configPath +:+ ". Please check file permissions."))
  else if code_is error "EISDIR" then
    Throw (Error ("Expected file but found directory: " +:+ configPath
      +:+ ". Please ensure cloudformation.json is a file, not a directory."))
  else if includes (message error) "Missing required field"
          || includes (message error) "Invalid JSON format"
          || includes (message error) "must be a JSON object"
          || includes (message error) "is empty"
          || includes (message error) "must be a valid string" then
    Throw error
  else
    Throw (Error ("Failed to read CloudFormation configuration from "
      +:+ configPath +:+ ": " +:+ message error)).

Lemma readCloudFormationConfig_unfold disk f :
  f <> "" ->
  readCloudFormationConfig disk (VStr f) =
  try_catch (config_body disk (f +:+ "/" +:+ "cloudformation.json"))
    (config_handler (f +:+ "/" +:+ "cloudformation.json")).
Proof.
  intros Hf. unfold readCloudFormationConfig.
  rewrite (folder_string_nonempty f Hf). f_equal.
  unfold config_body, stat_isFile, readFile, JSON_parse.
  destruct (disk _) as [| | | |c]; try reflexivity.
  cbn [bind negb]. rewrite falsy_string_eqb.
  destruct (String.eqb _ ""); [reflexivity|].
  destruct (json c) as [msg|v]; [reflexivity|]. cbn [try_catch bind].
  rewrite not_a_json_object_spec. destruct v; reflexivity.
Qed.

Lemma config_handler_throws path e : is_Ok (config_handler path e) = false.
Proof.
  unfold config_handler.
  repeat match goal with
         | |- context [if ?b then _ else _] => destruct b
         end; reflexivity.
Qed.

(** The handler on an error of the [try] block itself. *)
Lemma config_rethrown path msg :
  exists e',
    config_handler path (Error msg) = Throw e'
    /\ forall sub, includes msg sub = true -> includes (message e') sub = true.
Proof.
  unfold config_handler. cbn [code_is code Error message].
  match goal with
  | |- context [if ?b then _ else _] => destruct b
  end.
  - eexists. split; [reflexivity|auto].
  - eexists. split; [reflexivity|]. intros sub H. cbn [message Error].
    do 3 apply includes_skip. exact H.
Qed.

End DescriptorFacts.

Module DescriptorSpec.

Import MergeFacts ReaderFacts DescriptorFacts StackNameFacts.

Local Open Scope list_scope.

Lemma folder_string_Some v f :
  folder_string v = Some f -> v = VStr f /\ f <> "".
Proof.
  destruct v as [| |b|n|s|l|o]; try discriminate.
  - unfold folder_string. cbn. destruct (negb b); discriminate.
  - unfold folder_string. cbn. destruct (negb _); discriminate.
  - destruct s; [discriminate|]. intros [= <-]. split; [reflexivity|discriminate].
Qed.

(** X9.  A descriptor that [readCloudFormationConfig] returns is an
    object in which [project], [template] and [stack-prefix] are all
    present, with values that are neither [null] nor the empty string. *)
Theorem descriptor_has_required_fields (disk : fs) (folderPath config : value) :
  readCloudFormationConfig disk folderPath = Ok config ->
  exists o,
    config = VObj o
    /\ field_present o "project" /\ field_present o "template"
    /\ field_present o "stack-prefix".
Proof.
  intros H.
  destruct (folder_string folderPath) as [f|] eqn:Hf;
    [|unfold readCloudFormationConfig in H; by rewrite Hf in H].
  apply folder_string_Some in Hf as [-> Hf].
  rewrite (readCloudFormationConfig_unfold disk f Hf) in H.
  destruct (config_body disk _) as [v|e] eqn:Hbody; cbn [try_catch] in H.
  2:{ pose proof (config_handler_throws (f +:+ "/" +:+ "cloudformation.json") e)
        as Hthrows. by rewrite H in Hthrows. }
  injection H as ->. unfold config_body in Hbody.
  destruct (disk _) as [| | | |c]; try discriminate.
  destruct (String.eqb _ ""); [discriminate|].
  destruct (json c) as [msg|[| | | | | |o]]; try discriminate.
  destruct (validateJsonStructure o requiredFields) as [[]|] eqn:Hv;
    [|discriminate].
  injection Hbody as <-. exists o. split; [reflexivity|].
  apply validateJsonStructure_Ok in Hv.
  inversion Hv as [|? ? H1 Hv1]; subst. inversion Hv1 as [|? ? H2 Hv2]; subst.
  inversion Hv2 as [|? ? H3 _]; subst. auto.
Qed.

(** A folder with a complete descriptor, a default map and an array where
    the production map should be. *)
Definition disk_project : fs :=
  fun path =>
    if String.eqb path "cfn/cloudformation.json" then
      File {| text := "{...}";
              json := Parsed (VObj [("project", VStr "myapp");
                                    ("template", VStr "stack.yaml");
                                    ("stack-prefix", VStr "api")]) |}
    else if String.eqb path "cfn/params/default.json" then
      File {| text := "{...}";
              json := Parsed (VObj [("VpcId", VStr "vpc-default")]) |}
    else if String.eqb path "cfn/params/prod.json" then
      File {| text := "[]"; json := Parsed (VArr []) |}
    else NoEntry.

Lemma descriptor_has_required_fields_witness :
  exists o,
    readCloudFormationConfig disk_project (VStr "cfn") = Ok (VObj o)
    /\ field_present o "stack-prefix".
Proof.
  destruct (descriptor_has_required_fields disk_project (VStr "cfn") _ eq_refl)
    as (o & Ho & _ & _ & Hs).
  exists o. split; [rewrite <- Ho; reflexivity|exact Hs].
Defined.

(** X10.  When the descriptor file holds an object, loading it returns
    that object if no required field is missing, and otherwise throws
    ["Missing required field: "] followed by the first of [project],
    [template], [stack-prefix] that is missing, [null] or empty. *)
Theorem descriptor_missing_field_named (disk : fs) (f : string) c o :
  f <> "" ->
  disk (f +:+ "/" +:+ "cloudformation.json") = File c ->
  trim (text c) <> "" -> json c = Parsed (VObj o) ->
  readCloudFormationConfig disk (VStr f) =
  match List.find (field_missing o) requiredFields with
  | Some field => Throw (Error ("Missing required field: " +:+ field))
  | None => Ok (VObj o)
  end.
Proof.
  intros Hf Hd Ht Hj. rewrite (readCloudFormationConfig_unfold disk f Hf).
  unfold config_body. rewrite Hd, Hj.
  apply String.eqb_neq in Ht. rewrite Ht.
  rewrite validateJsonStructure_find.
  destruct (List.find _ _) as [field|]; [|reflexivity].
  cbn [bind try_catch]. unfold config_handler.
  cbn [code_is code Error message].
  change ("Missing required field: " +:+ field)
    with ("Missing required field" +:+ (": " +:+ field)).
  by rewrite includes_here.
Qed.

(** A descriptor without [stack-prefix], and with an empty [template]. *)
Definition disk_no_prefix : fs :=
  fun path =>
    if String.eqb path "cfn/cloudformation.json" then
      File {| text := "{...}";
              json := Parsed (VObj [("project", VStr "myapp");
                                    ("template", VStr "")]) |}
    else NoEntry.

Lemma descriptor_missing_field_named_witness :
  readCloudFormationConfig disk_no_prefix (VStr "cfn")
  = Throw (Error "Missing required field: template").
Proof.
  refine (descriptor_missing_field_named disk_no_prefix "cfn" _ _ _ eq_refl
            _ eq_refl); discriminate.
Defined.

(** X11.  Every other state of the descriptor file is a failure whose
    message tells which: not found, permission denied, not a file, empty,
    invalid syntax, not an object. *)
Theorem descriptor_failures (disk : fs) (f : string) k :
  f <> "" ->
  taxonomy (disk (f +:+ "/" +:+ "cloudformation.json")) = inl k ->
  exists e,
    readCloudFormationConfig disk (VStr f) = Throw e /\ describes k e.
Proof.
  intros Hf. rewrite (readCloudFormationConfig_unfold disk f Hf).
  unfold config_body.
  destruct (disk _) as [| | | |c]; cbn [taxonomy try_catch].
  - intros [= <-]. eexists. split; [reflexivity|]. vm_compute. reflexivity.
  - intros [= <-]. eexists. split; [reflexivity|]. vm_compute. reflexivity.
  - intros [= <-]. edestruct config_rethrown as (e' & -> & Hinc).
    eexists. split; [reflexivity|]. apply Hinc. vm_compute. reflexivity.
  - intros [= <-]. eexists. split; [reflexivity|]. vm_compute. reflexivity.
  - destruct (String.eqb _ "").
    { intros [= <-]. cbn [try_catch].
      edestruct config_rethrown as (e' & -> & Hinc).
      eexists. split; [reflexivity|]. apply Hinc. vm_compute. reflexivity. }
    destruct (json c) as [msg|v].
    { intros [= <-]. cbn [try_catch].
      edestruct config_rethrown as (e' & -> & Hinc).
      eexists. split; [reflexivity|]. apply Hinc. vm_compute. reflexivity. }
    destruct v; intros [= <-]; cbn [try_catch];
      edestruct config_rethrown as (e' & -> & Hinc);
      (eexists; split; [reflexivity|]; apply Hinc; vm_compute; reflexivity).
Qed.

Lemma descriptor_failures_witness :
  exists e,
    readCloudFormationConfig disk_no_prefix (VStr "infra") = Throw e
    /\ describes NotFound e.
Proof.
  apply (descriptor_failures disk_no_prefix "infra" NotFound);
    [discriminate|reflexivity].
Defined.

(** X12.  The descriptor check looks at presence only.  A [project] that
    is present and neither [null] nor empty, but is not a string with a
    character other than white space - a number, a boolean, an object,
    blanks - passes [validateJsonStructure], and [generateStackName] then
    refuses it, in either mode. *)
Theorem descriptor_accepts_what_naming_refuses (o : object) (x : value) :
  lookup_prop o "project" = Some x -> nullish x = false -> x <> VStr "" ->
  non_blank_string x = None ->
  validateJsonStructure o ["project"] = Ok tt
  /\ forall git stackPrefix isCiBuild environment,
       generateStackName git x stackPrefix isCiBuild environment
       = Throw (Error
           "Project name is required and must be a non-empty string").
Proof.
  intros Hl Hn Hx Hs. split.
  - cbn [validateJsonStructure]. unfold field_missing, has_field, prop.
    rewrite Hl. cbn [negb orb default from_option id]. rewrite Hn.
    destruct x as [| | | |[|]| |]; try reflexivity. congruence.
  - intros. unfold generateStackName, require_string. by rewrite Hs.
Qed.

Lemma descriptor_accepts_what_naming_refuses_witness :
  validateJsonStructure [("project", VNum 42)] ["project"] = Ok tt
  /\ generateStackName (Stdout "main") (VNum 42) (VStr "api") (VBool false)
       (VStr "prod")
     = Throw (Error "Project name is required and must be a non-empty string").
Proof.
  destruct (descriptor_accepts_what_naming_refuses [("project", VNum 42)]
              (VNum 42) eq_refl eq_refl) as [H1 H2];
    [discriminate|reflexivity|].
  split; [exact H1|apply H2].
Defined.

End DescriptorSpec.

(** ** The environment maps *)

Module EnvironmentSpec.

Import ReaderFacts.

Lemma read_environment_body_node disk what environment path :
  read_environment_body disk what environment path =
  match disk path with
  | NoEntry => Throw (errno "ENOENT" "stat" path "no such file or directory")
  | NoAccess => Throw (errno "EACCES" "stat" path "permission denied")
  | Directory =>
      Throw (Error (what +:+ " path exists but is not a file: " +:+ path))
  | Unreadable => Throw (errno "EACCES" "open" path "permission denied")
  | File c =>
      if String.eqb (trim (text c)) "" then
        Throw (Error (what +:+ " file is empty: " +:+ path
          +:+ ". Expected at least an empty JSON object {}."))
      else
        match json c with
        | SyntaxError msg =>
            Throw (Error ("Invalid JSON format in " +:+ environment
              +:+ ".json at " +:+ path +:+ ": " +:+ msg
              +:+ ". Please check the JSON syntax."))
        | Parsed (VObj o) => Ok (VObj o)
        | Parsed v =>
            Throw (Error (what +:+ " must be a JSON object, got "
              +:+ typeof v))
        end
  end.
Proof.
  unfold read_environment_body, stat_isFile, readFile, JSON_parse.
  destruct (disk path) as [| | | |c]; try reflexivity.
  cbn [bind negb]. rewrite falsy_string_eqb.
  destruct (String.eqb _ ""); [reflexivity|].
  destruct (json c) as [msg|v]; [reflexivity|]. cbn [try_catch bind].
  rewrite not_a_json_object_spec. destruct v; reflexivity.
Qed.

(** The two readers of an environment map on a path where something is
    found. *)
Lemma read_environment_agrees disk what what' environment path on_missing :
  (what = "Environment parameters" /\ what' = "environment parameters")
  \/ (what = "Environment tags" /\ what' = "environment tags") ->
  disk path <> NoEntry ->
  agrees (taxonomy (disk path))
    (try_catch (read_environment_body disk what environment path)
       (fun error =>
          if code_is error "ENOENT" then on_missing
          else if code_is error "EACCES" then
            Throw (Error ("Permission denied accessing " +:+ what'
              +:+ " file: " +:+ path +:+ ". Please check file permissions."))
          else if code_is error "EISDIR" then
            Throw (Error ("Expected file but found directory: " +:+ path
              +:+ ". Please ensure " +:+ environment
              +:+ ".json is a file, not a directory."))
          else if own_message error then Throw error
          else
            Throw (Error ("Failed to read " +:+ what' +:+ " from " +:+ path
              +:+ ": " +:+ message error)))).
Proof.
  intros Hwhat Hnode. rewrite read_environment_body_node.
  destruct (disk path) as [| | | |c] eqn:Hn; [congruence|..];
    cbn [taxonomy agrees try_catch].
  - eexists. split; [reflexivity|].
    destruct Hwhat as [[-> ->]|[-> ->]]; found.
  - rethrow. destruct Hwhat as [[-> _]|[-> _]]; found.
  - eexists. split; [reflexivity|].
    destruct Hwhat as [[-> ->]|[-> ->]]; found.
  - destruct (String.eqb _ ""); cbn [try_catch].
    + rethrow. destruct Hwhat as [[-> _]|[-> _]]; found.
    + destruct (json c) as [msg|v]; cbn [try_catch]; [rethrow; found|].
      destruct v; try reflexivity; cbn [try_catch];
        rethrow; destruct Hwhat as [[-> _]|[-> _]]; found.
Qed.



(** X14.  For a named environment the two environment readers have three
    outcomes: [null] when the file [params/<environment>.json] (or
    [tags/<environment>.json]) is absent, the object the file holds, and
    a failure for everything else that can be found at the path -
    permission denied, not a file, empty, invalid syntax, not an object. *)
Theorem environment_map_outcomes (disk : fs) (f name : string) :
  f <> "" -> environment_string (VStr name) = Some name ->
  (disk (path_join f "params" (name +:+ ".json")) = NoEntry ->
   readEnvironmentParameters disk (VStr f) (VStr name) = Ok VNull)
  /\ (disk (path_join f "params" (name +:+ ".json")) <> NoEntry ->
      agrees (taxonomy (disk (path_join f "params" (name +:+ ".json"))))
        (readEnvironmentParameters disk (VStr f) (VStr name)))
  /\ (disk (path_join f "tags" (name +:+ ".json")) = NoEntry ->
      readEnvironmentTags disk (VStr f) (VStr name) = Ok VNull)
  /\ (disk (path_join f "tags" (name +:+ ".json")) <> NoEntry ->
      agrees (taxonomy (disk (path_join f "tags" (name +:+ ".json"))))
        (readEnvironmentTags disk (VStr f) (VStr name))).
Proof.
  intros Hf He. unfold readEnvironmentParameters, readEnvironmentTags.
  rewrite (folder_string_nonempty f Hf), He.
  split; [|split; [|split]].
  - intros Hn. by rewrite read_environment_body_node, Hn.
  - intros Hn.
    apply (read_environment_agrees disk "Environment parameters"
             "environment parameters"); [left; split; reflexivity|exact Hn].
  - intros Hn. by rewrite read_environment_body_node, Hn.
  - intros Hn.
    apply (read_environment_agrees disk "Environment tags"
             "environment tags"); [right; split; reflexivity|exact Hn].
Qed.

(** A folder whose production parameters are an array and whose
    production tags are absent. *)
Definition disk_array : fs :=
  fun path =>
    if String.eqb path "cfn/params/prod.json" then
      File {| text := "[]"; json := Parsed (VArr []) |}
    else NoEntry.

Lemma environment_map_outcomes_witness :
  (exists e,
     readEnvironmentParameters disk_array (VStr "cfn") (VStr "prod") = Throw e
     /\ describes NotAnObject e)
  /\ readEnvironmentTags disk_array (VStr "cfn") (VStr "prod") = Ok VNull.
Proof.
  destruct (environment_map_outcomes disk_array "cfn" "prod")
    as (_ & H2 & H3 & _); [discriminate|reflexivity|].
  split; [apply H2; discriminate|apply H3; reflexivity].
Defined.

End EnvironmentSpec.

(** ** More on stack names *)

Module StackNameMore.

Import SanitizeFacts StackNameFacts.

Local Open Scope list_scope.

Lemma units_append (a b : string) : units (a +:+ b) = units a ++ units b.
Proof.
  induction a as [|c a IH]; [reflexivity|].
  change (units (String c a +:+ b)) with (c :: units (a +:+ b)).
  by rewrite IH.
Qed.

Lemma length_units (s : string) : List.length (units s) = String.length s.
Proof.
  unfold units. induction s as [|c s IH]; [reflexivity|]. cbn. by rewrite IH.
Qed.

Lemma non_blank_string_Some v s :
  non_blank_string v = Some s -> v = VStr s.
Proof.
  unfold non_blank_string.
  destruct (negb (truthy v) || negb (String.eqb (typeof v) "string"));
    [discriminate|].
  destruct v as [| | | |s'| |]; try discriminate.
  destruct (String.eqb (trim s') ""); [discriminate|]. by intros [= <-].
Qed.

Lemma require_string_Ok v msg s : require_string v msg = Ok s -> v = VStr s.
Proof.
  unfold require_string. destruct (non_blank_string v) as [s'|] eqn:E;
    [|discriminate].
  intros [= <-]. by apply non_blank_string_Some.
Qed.

(** What [getCurrentBranchName] returns. *)
Lemma getCurrentBranchName_Ok git branch :
  getCurrentBranchName git = Ok branch ->
  exists out,
    git = Stdout out /\ branch = trim out /\ branch <> ""
    /\ branch <> "HEAD" /\ String.length branch <= 100.
Proof.
  unfold getCurrentBranchName. destruct git as [out|e0]; cbn [execSync bind].
  - destruct (falsy_string (trim out) || String.eqb (trim out) "HEAD") eqn:Hh.
    { cbn. discriminate. }
    apply orb_false_elim in Hh as [Hf Hh].
    destruct (Nat.ltb_spec 100 (String.length (trim out))) as [Hl|Hl].
    { cbn [try_catch].
      cbn [StackNameGenerator.code_is StackNameGenerator.signal_is
           StackNameGenerator.status_is code signal status killed Error orb
           message].
      repeat match goal with
             | |- context [if ?b then _ else _] => destruct b
             end; discriminate. }
    cbn [try_catch]. intros [= <-]. exists out.
    split; [reflexivity|]. split; [reflexivity|].
    split; [intros E; by rewrite E in Hf|].
    split; [by apply String.eqb_neq|exact Hl].
  - cbn [try_catch].
    repeat match goal with
           | |- context [if ?b then _ else _] => destruct b
           end; discriminate.
Qed.

Lemma sanitizeBranchName_Ok s t :
  sanitizeBranchName s = Ok t ->
  s <> "" /\ t = of_units (sanitize_units (units s)).
Proof.
  unfold sanitizeBranchName. destruct s as [|c s]; [discriminate|].
  intros [= <-]. split; [discriminate|reflexivity].
Qed.

Lemma valid_component_intro s :
  validNameRegex s = true -> (50 <? String.length s)%nat = false ->
  valid_component s = true.
Proof.
  intros H1 H2. unfold valid_component. rewrite H1. apply Nat.ltb_ge in H2.
  by apply Nat.leb_le in H2 as ->.
Qed.

(** Every way in which [generateStackName] returns. *)
Lemma generateStackName_Ok_inv git project stackPrefix isCiBuild environment name :
  generateStackName git project stackPrefix isCiBuild environment = Ok name ->
  exists p sp ci suffix,
    project = VStr p /\ stackPrefix = VStr sp /\ isCiBuild = VBool ci
    /\ valid_component p = true /\ valid_component sp = true
    /\ name = compose p sp suffix /\ String.length name <= 128
    /\ (if ci then
          exists out,
            git = Stdout out /\ trim out <> "HEAD"
            /\ String.length (trim out) <= 100
            /\ sanitizeBranchName (trim out) = Ok suffix /\ suffix <> ""
        else environment = VStr suffix /\ valid_component suffix = true).
Proof.
  unfold generateStackName.
  destruct (require_string project _) as [p|] eqn:Hp; [|discriminate].
  destruct (require_string stackPrefix _) as [sp|] eqn:Hsp; [|discriminate].
  apply require_string_Ok in Hp as ->. apply require_string_Ok in Hsp as ->.
  destruct isCiBuild as [| |ci| | | |]; try discriminate. cbn [bind].
  destruct (validNameRegex p) eqn:Hvp; [|discriminate].
  destruct (validNameRegex sp) eqn:Hvs; [|discriminate]. cbn [negb].
  destruct (50 <? String.length p)%nat eqn:Hlp; [discriminate|].
  destruct (50 <? String.length sp)%nat eqn:Hls; [discriminate|].
  intros H. exists p, sp, ci.
  assert (exists suffix,
    (if ci then
       exists out,
         git = Stdout out /\ trim out <> "HEAD"
         /\ String.length (trim out) <= 100
         /\ sanitizeBranchName (trim out) = Ok suffix /\ suffix <> ""
     else environment = VStr suffix /\ valid_component suffix = true)
    /\ name = compose p sp suffix /\ String.length name <= 128)
    as (suffix & Hmode & -> & Hlen).
  { destruct ci.
    - destruct (getCurrentBranchName git) as [branch|] eqn:Hb; [|discriminate].
      apply getCurrentBranchName_Ok in Hb as (out & -> & -> & _ & Hh & Hl).
      cbn [bind] in H.
      destruct (sanitizeBranchName (trim out)) as [t|] eqn:Ht; [|discriminate].
      cbn [bind] in H. destruct (falsy_string t) eqn:Hf; [discriminate|].
      cbn [bind] in H.
      destruct (128 <? _)%nat eqn:Hn; [discriminate|]. injection H as <-.
      exists t. split; [|split; [reflexivity|by apply Nat.ltb_ge]].
      exists out. repeat split; try done. intros ->. discriminate.
    - destruct (require_string environment _) as [env|] eqn:He; [|discriminate].
      apply require_string_Ok in He as ->. cbn [bind] in H.
      destruct (validNameRegex env) eqn:Hve; [|discriminate]. cbn [negb] in H.
      destruct (50 <? String.length env)%nat eqn:Hle; [discriminate|].
      cbn [bind] in H.
      destruct (128 <? _)%nat eqn:Hn; [discriminate|]. injection H as <-.
      exists env. split; [|split; [reflexivity|by apply Nat.ltb_ge]].
      split; [reflexivity|by apply valid_component_intro]. }
  exists suffix. repeat split; try done; by apply valid_component_intro.
Qed.

Lemma forallb_lower_units_sanitize s t :
  sanitizeBranchName s = Ok t -> forallb name_unit (units t) = true.
Proof.
  intros [_ ->]%sanitizeBranchName_Ok. rewrite units_of_units.
  apply forallb_lower_name. apply sanitize_units_clean.
Qed.

Lemma validNameRegex_intro s :
  s <> "" -> forallb name_unit (units s) = true -> validNameRegex s = true.
Proof.
  unfold validNameRegex. destruct s as [|c s]; [congruence|]. by intros _.
Qed.

(** A returned name is not empty and holds letters, digits and hyphens
    only. *)
Lemma generateStackName_Ok_units git project stackPrefix isCiBuild
    environment name :
  generateStackName git project stackPrefix isCiBuild environment = Ok name ->
  name <> "" /\ forallb name_unit (units name) = true.
Proof.
  intros H. apply generateStackName_Ok_inv in H
    as (p & sp & ci & suffix & _ & _ & _ & Hp & Hs & -> & Hlen & Hmode).
  apply valid_component_spec in Hp as [Hp _].
  apply valid_component_spec in Hs as [Hs _].
  destruct (validNameRegex_units p Hp) as [Hpne Hpu].
  destruct (validNameRegex_units sp Hs) as [_ Hsu].
  assert (forallb name_unit (units suffix) = true) as Hsuf.
  { destruct ci.
    - destruct Hmode as (out & _ & _ & _ & Hsan & _).
      by apply (forallb_lower_units_sanitize (trim out)).
    - destruct Hmode as [_ Hv]. apply valid_component_spec in Hv as [Hv _].
      by apply validNameRegex_units in Hv as [_ Hv]. }
  split.
  - destruct p; [congruence|discriminate].
  - unfold compose. rewrite !units_append, !forallb_app, Hpu, Hsu, Hsuf.
    reflexivity.
Qed.

(** The length of the sanitized name. *)
Lemma collapse_length l :
  List.length (collapse_hyphens l) <= List.length l.
Proof.
  induction l as [|c l IH]; [reflexivity|].
  destruct l as [|c' t]; [reflexivity|]. rewrite collapse_cons.
  destruct (is_hyphen c && is_hyphen c'); cbn [List.length] in *; lia.
Qed.

Lemma strip_leading_length l :
  List.length (strip_leading l) <= List.length l.
Proof.
  induction l as [|c l IH]; [reflexivity|]. cbn [strip_leading].
  destruct (is_hyphen c); cbn [List.length]; lia.
Qed.

Lemma strip_trailing_length l :
  List.length (strip_trailing l) <= List.length l.
Proof.
  induction l as [|c l IH]; [reflexivity|]. rewrite strip_trailing_cons.
  destruct (strip_trailing l); [destruct (is_hyphen c)|];
    cbn [List.length] in *; lia.
Qed.

Lemma sanitize_units_length l :
  List.length (sanitize_units l) <= List.length l.
Proof.
  unfold sanitize_units, replace_invalid. rewrite length_map.
  etransitivity; [apply strip_trailing_length|].
  etransitivity; [apply strip_leading_length|].
  etransitivity; [apply collapse_length|]. by rewrite length_map.
Qed.

End StackNameMore.

Module StackNameMoreSpec.

Import SanitizeFacts StackNameFacts StackNameMore.

Local Open Scope list_scope.

Lemma getCurrentBranchName_Stdout out :
  trim out <> "" -> trim out <> "HEAD" -> String.length (trim out) <= 100 ->
  getCurrentBranchName (Stdout out) = Ok (trim out).
Proof.
  intros He Hh Hl. unfold getCurrentBranchName. cbn [execSync bind].
  assert (falsy_string (trim out) = false) as ->
    by (destruct (trim out) eqn:E; [congruence|reflexivity]).
  apply String.eqb_neq in Hh. rewrite Hh. cbn [orb].
  apply Nat.ltb_ge in Hl. by rewrite Hl.
Qed.

(** X15.  The branch lookup returns a name exactly when the command
    succeeds and its output, once trimmed, is not empty, is not [HEAD] and
    has at most 100 characters; the name is that trimmed output. *)
Theorem branch_name_returned_iff (git : exec_outcome) (branch : string) :
  getCurrentBranchName git = Ok branch
  <-> exists out,
        git = Stdout out /\ branch = trim out /\ branch <> ""
        /\ branch <> "HEAD" /\ String.length branch <= 100.
Proof.
  split; [apply getCurrentBranchName_Ok|].
  intros (out & -> & -> & He & Hh & Hl). by apply getCurrentBranchName_Stdout.
Qed.

(** X16.  A name that [generateStackName] returns, in either mode and
    whatever the arguments, matches [^[a-zA-Z0-9-]+$] and has at most 128
    characters. *)
Theorem stack_name_is_valid (git : exec_outcome)
    (project stackPrefix isCiBuild environment : value) (name : string) :
  generateStackName git project stackPrefix isCiBuild environment = Ok name ->
  validNameRegex name = true /\ String.length name <= 128.
Proof.
  intros H. split; [|by apply generateStackName_cap in H].
  apply generateStackName_Ok_units in H as [Hne Hall].
  by apply validNameRegex_intro.
Qed.

Lemma stack_name_is_valid_witness :
  validNameRegex "myapp-api-feature-x" = true
  /\ String.length "myapp-api-feature-x" <= 128.
Proof.
  exact (stack_name_is_valid (Stdout " feature/x ") (VStr "myapp") (VStr "api")
           (VBool true) VUndefined "myapp-api-feature-x" eq_refl).
Defined.

(** X17.  In build mode, with a valid project and stack prefix, a name
    is returned exactly when the branch lookup prints a name other than
    [HEAD] of at most 100 characters (once trimmed) whose sanitized form
    is not empty, and the composed name has at most 128 characters; the
    name is [project-stackPrefix-sanitizedBranch].  The environment
    argument plays no part. *)
Theorem build_mode_name_iff (git : exec_outcome) (p sp : string)
    (environment : value) (name : string) :
  valid_component p = true -> valid_component sp = true ->
  generateStackName git (VStr p) (VStr sp) (VBool true) environment = Ok name
  <-> exists out suffix,
        git = Stdout out /\ trim out <> "HEAD"
        /\ String.length (trim out) <= 100
        /\ sanitizeBranchName (trim out) = Ok suffix /\ suffix <> ""
        /\ name = compose p sp suffix /\ String.length name <= 128.
Proof.
  intros Hp Hs. split.
  - intros H. apply generateStackName_Ok_inv in H
      as (p' & sp' & ci & suffix & [= <-] & [= <-] & [= <-] & _ & _ & -> & Hlen
          & out & -> & Hmode).
    exists out, suffix. tauto.
  - intros (out & suffix & -> & Hh & Hl & Hsan & Hne & -> & Hlen).
    rewrite (generateStackName_valid_prefix _ p sp true environment Hp Hs).
    destruct (sanitizeBranchName_Ok _ _ Hsan) as [He _].
    rewrite (getCurrentBranchName_Stdout out He Hh Hl). cbn [bind].
    rewrite Hsan. cbn [bind].
    assert (falsy_string suffix = false) as ->
      by (destruct suffix; [congruence|reflexivity]).
    cbn [bind]. apply Nat.ltb_ge in Hlen. by rewrite Hlen.
Qed.

Lemma build_mode_name_iff_witness :
  generateStackName (Stdout "feature/JIRA-123_fix-user@auth.issue")
    (VStr "myapp") (VStr "api") (VBool true) (VStr "ignored")
  = Ok "myapp-api-feature-jira-123-fix-user-auth-issue".
Proof.
  apply (build_mode_name_iff (Stdout "feature/JIRA-123_fix-user@auth.issue")
           "myapp" "api" (VStr "ignored") _ eq_refl eq_refl).
  exists "feature/JIRA-123_fix-user@auth.issue",
    "feature-jira-123-fix-user-auth-issue".
  split; [reflexivity|]. split; [discriminate|]. split; [vm_compute; lia|].
  split; [reflexivity|]. split; [discriminate|]. split; [reflexivity|].
  vm_compute. lia.
Defined.

(** X18.  A sanitized branch name has no hyphen at either end and no two
    hyphens in a row, and it is not longer than the branch name. *)
Theorem sanitized_shape_and_length (s t : string) :
  sanitizeBranchName s = Ok t ->
  no_lead (units t) = true /\ no_trail (units t) = true
  /\ no_double (units t) = true
  /\ String.length t <= String.length s.
Proof.
  intros [_ ->]%sanitizeBranchName_Ok. rewrite units_of_units.
  destruct (sanitize_units_clean (units s)) as (_ & Hd & Hl & Ht).
  split; [exact Hl|]. split; [exact Ht|]. split; [exact Hd|].
  rewrite <- !length_units, units_of_units. apply sanitize_units_length.
Qed.

Lemma sanitized_shape_and_length_witness :
  no_lead (units "a-b") = true /\ no_trail (units "a-b") = true
  /\ no_double (units "a-b") = true
  /\ String.length "a-b" <= String.length "--a__/b--".
Proof. exact (sanitized_shape_and_length "--a__/b--" "a-b" eq_refl). Defined.

(** X19.  A non-empty name that is already in sanitized form - lower-case
    letters, digits and single hyphens, none of them at an end - is
    returned unchanged. *)
Theorem sanitize_keeps_clean_names (s : string) :
  s <> "" -> clean (units s) -> sanitizeBranchName s = Ok s.
Proof.
  intros Hs Hc. rewrite (sanitize_Ok s Hs), (sanitize_units_fixed _ Hc).
  by rewrite of_units_units.
Qed.

Lemma sanitize_keeps_clean_names_witness :
  sanitizeBranchName "feature-123" = Ok "feature-123".
Proof.
  apply sanitize_keeps_clean_names; [discriminate|].
  repeat split; reflexivity.
Defined.

End StackNameMoreSpec.

(** ** More on build identifiers *)

Module BuildIdMore.

Import BuildIdFacts StackNameMore.

Local Open Scope list_scope.

(** The index is one of the alphabet. *)
Definition in_alphabet (i : Z) : bool := (0 <=? i)%Z && (i <? 26)%Z.

Lemma length_append (a b : string) :
  String.length (a +:+ b) = String.length a + String.length b.
Proof.
  induction a as [|c a IH]; [reflexivity|].
  change (S (String.length (a +:+ b)) = S (String.length a + String.length b)).
  by rewrite IH.
Qed.

Lemma letter_at_length (i : Z) :
  String.length (letter_at i) = if in_alphabet i then 1 else 9.
Proof.
  unfold in_alphabet, letter_at.
  destruct (Z.ltb_spec i 0) as [Hneg|Hpos].
  { destruct (Z.leb_spec 0 i); [lia|reflexivity]. }
  destruct (Z.leb_spec 0 i); [|lia]. cbn [andb].
  destruct (Z.ltb_spec i 26) as [Hlt|Hge].
  - destruct (letter_at_lower i) as (c & Hc & _); [lia|].
    unfold letter_at in Hc. destruct (Z.ltb_spec i 0); [lia|].
    by rewrite Hc.
  - assert (exists m, Z.to_nat i = 26 + m) as [m ->] by (exists (Z.to_nat i - 26); lia).
    reflexivity.
Qed.

(** The number of draws, among [count] draws from [pos] on, whose index
    is outside the alphabet. *)
Fixpoint outside (random : nat -> Q) (count pos : nat) : nat :=
  match count with
  | O => 0
  | S count' =>
      (if in_alphabet (randomIndex_of (random pos)) then 0 else 1)
      + outside random count' (S pos)
  end.

Lemma draw_length (random : nat -> Q) : forall count pos acc,
  String.length (draw random count pos acc).1
  = String.length acc + count + 8 * outside random count pos
  /\ (draw random count pos acc).2 = pos + count.
Proof.
  induction count as [|count IH]; intros pos acc.
  - cbn. lia.
  - cbn [draw outside].
    destruct (IH (S pos) (acc +:+ letter_at (randomIndex_of (random pos))))
      as [-> ->].
    rewrite length_append, letter_at_length.
    destruct (in_alphabet _); lia.
Qed.






Lemma validateIdFormat_true id :
  validateIdFormat id = true ->
  6 <= String.length id <= 10 /\ forallb is_lower (units id) = true.
Proof.
  unfold validateIdFormat, lowercaseAlphabetRegex.
  destruct (Nat.ltb_spec (String.length id) 6); [discriminate|].
  destruct (Nat.ltb_spec 10 (String.length id)); [discriminate|].
  cbn [orb]. destruct id as [|c id]; [discriminate|]. intros Hall.
  split; [lia|exact Hall].
Qed.


End BuildIdMore.

Module BuildIdMoreSpec.

Import BuildIdFacts BuildIdMore.



(** X21.  If one of the draws gives an index outside the alphabet - the
    random source returned a number that is negative, or 1 or more -
    [generateRandomId] throws the error of its self-check. *)
Theorem bad_draw_fails_self_check (length : argument) (random : nat -> Q)
    (pos : nat) :
  acceptable length = true ->
  outside random (Z.to_nat (requested length)) pos <> 0 ->
  exists e,
    (generateRandomId length random pos).1 = Throw e
    /\ startsWith (message e) "Generated ID failed validation: " = true.
Proof.
  intros Hacc Hout.
  assert (exists x, default_length length = Number x /\ isInteger x = true
                    /\ (6 <= integer_of x <= 10)%Z) as (x & Hx & Hint & Hrange).
  { destruct length as [|x|ty]; [|cbn in Hacc|discriminate].
    - exists (Finite 8). split; [reflexivity|]. split; [reflexivity|].
      vm_compute. split; discriminate.
    - apply andb_prop in Hacc as [Hacc H10].
      apply andb_prop in Hacc as [Hint H6].
      exists x. split; [reflexivity|]. split; [exact Hint|]. lia. }
  unfold generateRandomId, requested in *. rewrite Hx in *. rewrite Hint.
  cbn [negb].
  destruct (Z.ltb_spec (integer_of x) 6); [lia|].
  destruct (Z.ltb_spec 10 (integer_of x)); [lia|]. cbn [orb].
  pose proof (draw_length random (Z.to_nat (integer_of x)) pos "") as [Hl _].
  destruct (draw random (Z.to_nat (integer_of x)) pos "") as [result p'].
  cbn [fst String.length] in Hl.
  destruct (validateIdFormat result) eqn:Hv; cbn [negb fst].
  - apply validateIdFormat_true in Hv as [Hlen _]. lia.
  - eexists. split; [reflexivity|]. cbn [message Error]. unfold startsWith.
    apply ReaderFacts.prefix_append.
Qed.

(** A random source whose third result is 1. *)
Definition third_is_one (i : nat) : Q := if (i =? 2)%nat then 1 else 0.

Lemma bad_draw_fails_self_check_witness :
  exists e,
    (generateRandomId (Number (Finite 6)) third_is_one 0).1 = Throw e
    /\ startsWith (message e) "Generated ID failed validation: " = true.
Proof.
  apply (bad_draw_fails_self_check (Number (Finite 6)) third_is_one 0);
    [reflexivity|].
  vm_compute. discriminate.
Defined.

End BuildIdMoreSpec.

(** ** The run *)

Module RunFacts.

Import MergeFacts ReaderFacts FormatFacts StackNameFacts StackNameMore
  BuildIdFacts BuildIdMore.

Local Open Scope list_scope.

(** The three inputs of the action. *)
Definition folder_of (p : process) : string :=
  env_or p "INPUT_CFN_DIRECTORY" "cfn".
Definition ci_build_of (p : process) : string :=
  env_or p "INPUT_CI_BUILD" "false".
Definition environment_of (p : process) : string :=
  env_or p "INPUT_ENVIRONMENT" "".

Lemma formatParameters_map_Ok entries : forall records,
  formatParameters_map entries = Ok records ->
  records = map parameter_of entries.
Proof.
  induction entries as [|[k v] entries IH]; intros records.
  - by intros [= <-].
  - cbn [formatParameters_map]. destruct (blank_key k); [discriminate|].
    destruct (nullish v); [discriminate|].
    destruct (formatParameters_map entries) as [rest|] eqn:E; [|discriminate].
    cbn [bind]. intros [= <-]. by rewrite (IH rest eq_refl).
Qed.

Lemma formatTags_map_Ok entries : forall records,
  formatTags_map entries = Ok records -> records = map tag_of entries.
Proof.
  induction entries as [|[k v] entries IH]; intros records.
  - by intros [= <-].
  - cbn [formatTags_map]. destruct (blank_key k); [discriminate|].
    destruct (nullish v); [discriminate|].
    destruct (formatTags_map entries) as [rest|] eqn:E; [|discriminate].
    cbn [bind]. intros [= <-]. by rewrite (IH rest eq_refl).
Qed.

Lemma formatForCloudFormation_Ok σ x records :
  formatForCloudFormation σ x = Ok records ->
  records = map parameter_of (props_of σ x)
  /\ List.length (keys (props_of σ x)) <= 200.
Proof.
  unfold formatForCloudFormation. destruct (not_an_object x); [discriminate|].
  destruct (validateParameterObject σ x "merged") as [[]|] eqn:Hv;
    [|discriminate].
  cbn [bind try_catch].
  destruct (formatParameters_map _) as [rs|] eqn:Hm; [|discriminate].
  intros [= <-]. split; [by apply formatParameters_map_Ok|].
  assert (is_Ok (validateParameterObject σ x "merged") = true) as Hok
    by (by rewrite Hv).
  rewrite validateParameterObject_Ok in Hok.
  apply andb_prop in Hok as [_ Hok].
  apply valid_parameters_spec in Hok as [Hok _]. exact Hok.
Qed.

Lemma formatTagsForCloudFormation_Ok σ x records :
  formatTagsForCloudFormation σ x = Ok records ->
  records = map tag_of (props_of σ x)
  /\ List.length (keys (props_of σ x)) <= 50.
Proof.
  unfold formatTagsForCloudFormation. destruct (not_an_object x); [discriminate|].
  destruct (validateTagsObject σ x "merged") as [[]|] eqn:Hv; [|discriminate].
  cbn [bind try_catch].
  destruct (formatTags_map _) as [rs|] eqn:Hm; [|discriminate].
  intros [= <-]. split; [by apply formatTags_map_Ok|].
  assert (is_Ok (validateTagsObject σ x "merged") = true) as Hok
    by (by rewrite Hv).
  rewrite validateTagsObject_Ok in Hok.
  apply andb_prop in Hok as [_ Hok].
  apply valid_tags_spec in Hok as [Hok _]. exact Hok.
Qed.

(** A merge returns a reference to a new object at the end of the store. *)
Lemma mergeParameters_Ok_shape d e σ r :
  mergeParameters d e σ = Ok r ->
  exists o : object, r = (Ref (List.length σ), σ ++ [o]).
Proof.
  unfold mergeParameters. destruct (not_an_object d); [discriminate|].
  match goal with
  | |- (if ?b then _ else _) = _ -> _ => destruct b; [discriminate|]
  end.
  match goal with
  | |- try_catch (if ?b then _ else _) _ = _ -> _ => destruct b
  end.
  - cbn [try_catch alloc]. intros [= <-]. eauto.
  - destruct (validateParameterObject σ d "default") as [[]|]; [|discriminate].
    destruct (validateParameterObject σ e "environment") as [[]|];
      [|discriminate].
    cbn [bind try_catch alloc]. intros [= <-]. eauto.
Qed.

Lemma elem_of_set_prop (o : object) k v : (k, v) ∈ set_prop o k v.
Proof.
  induction o as [|[k' v'] o IH]; cbn [set_prop]; [left|].
  destruct (String.eqb_spec k' k) as [->|_]; [left|by right].
Qed.

Lemma elem_of_set_prop_ne (o : object) k v k' v' :
  (k', v') ∈ o -> k' <> k -> (k', v') ∈ set_prop o k v.
Proof.
  intros Hin Hne. induction o as [|[k0 v0] o IH]; [by apply elem_of_nil in Hin|].
  cbn [set_prop]. apply elem_of_cons in Hin as [[= <- <-]|Hin].
  - destruct (String.eqb_spec k' k) as [->|_]; [congruence|left].
  - destruct (String.eqb k0 k); right; [exact Hin|by apply IH].
Qed.

Lemma length_set_prop (o : object) k v :
  List.length o <= List.length (set_prop o k v).
Proof.
  induction o as [|[k' v'] o IH]; cbn [set_prop]; [cbn; lia|].
  destruct (String.eqb k' k); cbn [List.length]; lia.
Qed.

(** A field set on the last object of the store. *)
Lemma props_of_set_field σ (o : object) k v :
  props_of (set_field (σ ++ [o]) (Ref (List.length σ)) k v)
    (Ref (List.length σ))
  = set_prop o k v
  /\ set_field (σ ++ [o]) (Ref (List.length σ)) k v = σ ++ [set_prop o k v].
Proof.
  assert (set_field (σ ++ [o]) (Ref (List.length σ)) k v
          = σ ++ [set_prop o k v]) as ->.
  { unfold set_field. rewrite lookup_app_r by reflexivity.
    rewrite Nat.sub_diag. cbn [lookup list_lookup].
    rewrite insert_app_r_alt by reflexivity. by rewrite Nat.sub_diag. }
  split; [|reflexivity]. cbn [props_of].
  rewrite lookup_app_r by reflexivity. by rewrite Nat.sub_diag.
Qed.

(** The merged tags with the six tags of the run. *)
Definition git_tagged (p : process) (o : object) : object :=
  let parts := split (env_or p "GITHUB_REPOSITORY" "unknown") "/"%char in
  set_prop
    (set_prop
       (set_prop
          (set_prop
             (set_prop
                (set_prop o "GitCommit"
                   (VStr (String.substring 0 8
                            (env_or p "GITHUB_SHA" "unknown"))))
                "GitLastModifiedBy" (VStr (env_or p "GITHUB_ACTOR" "unknown")))
             "GitLastModifiedAt" (VStr (now p)))
          "GitFile" (VStr (env_or p "GITHUB_WORKFLOW" "unknown")))
       "GitOrg" (VStr (or_unknown (parts !! 0))))
    "GitRepo" (VStr (or_unknown (parts !! 1))).

Lemma add_git_tags_last p σ (o : object) :
  add_git_tags p (σ ++ [o]) (Ref (List.length σ)) = σ ++ [git_tagged p o].
Proof.
  unfold add_git_tags, git_tagged. cbv zeta.
  repeat rewrite (proj2 (props_of_set_field σ _ _ _)). reflexivity.
Qed.

(** The merged parameters with the parameter of a CI build. *)
Definition with_ci_parameter (isCiBuild : bool) (ciBuildId : string)
    (o : object) : object :=
  if isCiBuild && negb (falsy_string ciBuildId) then
    set_prop o "CiBuildId" (VStr ("-" +:+ ciBuildId))
  else o.

(** Every way in which the [try] block of [run] reaches the outputs. *)
Lemma run_try_Ok_inv (p : process) (v : run_values) :
  run_try p = Ok v ->
  exists isCiBuild config defaultParams envParams defaultTags envTags
         ciBuildId (merged mergedTags : object) name,
    parseBooleanInput (VStr (ci_build_of p)) = Ok isCiBuild
    /\ is_Ok (validateInputs (VStr (folder_of p)) isCiBuild
                (VStr (environment_of p))) = true
    /\ readCloudFormationConfig (disk p) (VStr (folder_of p)) = Ok config
    /\ readDefaultParameters (disk p) (VStr (folder_of p)) = Ok defaultParams
    /\ readEnvironmentParameters (disk p) (VStr (folder_of p))
         (VStr (environment_of p)) = Ok envParams
    /\ readDefaultTags (disk p) (VStr (folder_of p)) = Ok defaultTags
    /\ readEnvironmentTags (disk p) (VStr (folder_of p))
         (VStr (environment_of p)) = Ok envTags
    /\ (if isCiBuild then
          (generateRandomId Missing (random p) 0).1 = Ok ciBuildId
        else ciBuildId = "")
    /\ mergeParameters (Lit defaultParams) (Lit envParams) []
       = Ok (Ref 0, [merged])
    /\ formattedParams v
       = map parameter_of (with_ci_parameter isCiBuild ciBuildId merged)
    /\ List.length (with_ci_parameter isCiBuild ciBuildId merged) <= 200
    /\ mergeParameters (Lit defaultTags) (Lit envTags)
         [with_ci_parameter isCiBuild ciBuildId merged]
       = Ok (Ref 1, [with_ci_parameter isCiBuild ciBuildId merged; mergedTags])
    /\ formattedTags v = map tag_of (git_tagged p mergedTags)
    /\ List.length (git_tagged p mergedTags) <= 50
    /\ generateStackName (git p)
         (prop (ConfigurationReader.props config) "project")
         (prop (ConfigurationReader.props config) "stack-prefix")
         (VBool isCiBuild) (VStr (environment_of p)) = Ok name
    /\ stackName v
       = (if isCiBuild && negb (falsy_string ciBuildId) then
            with_build_id name ciBuildId
          else name)
    /\ template v = prop (ConfigurationReader.props config) "template".
Proof.
  unfold run_try. fold (folder_of p) (ci_build_of p) (environment_of p).
  destruct (parseBooleanInput _) as [isCiBuild|] eqn:Hci; [|discriminate].
  cbn [bind].
  destruct (validateInputs _ _ _) as [ws|] eqn:Hval; [|discriminate].
  cbn [bind].
  destruct (readCloudFormationConfig _ _) as [config|] eqn:Hconfig;
    [|discriminate]. cbn [bind].
  destruct (readDefaultParameters _ _) as [defaultParams|] eqn:Hdp;
    [|discriminate]. cbn [bind].
  destruct (readEnvironmentParameters _ _ _) as [envParams|] eqn:Hep;
    [|discriminate]. cbn [bind].
  destruct (readDefaultTags _ _) as [defaultTags|] eqn:Hdt; [|discriminate].
  cbn [bind].
  destruct (readEnvironmentTags _ _ _) as [envTags|] eqn:Het; [|discriminate].
  cbn [bind].
  destruct (if isCiBuild then _ else _) as [ciBuildId|] eqn:Hid;
    [|discriminate]. cbn [bind].
  destruct (mergeParameters (Lit defaultParams) (Lit envParams) [])
    as [r|] eqn:Hm; [|discriminate]. cbn [bind].
  destruct (mergeParameters_Ok_shape _ _ _ _ Hm) as [merged ->].
  cbn [fst snd List.length app].
  assert ((if isCiBuild && negb (falsy_string ciBuildId)
           then set_field [merged] (Ref 0) "CiBuildId"
                  (VStr ("-" +:+ ciBuildId))
           else [merged])
          = [with_ci_parameter isCiBuild ciBuildId merged]) as ->.
  { unfold with_ci_parameter. by destruct (isCiBuild && _). }
  destruct (formatForCloudFormation _ _) as [records|] eqn:Hf; [|discriminate].
  cbn [bind].
  apply formatForCloudFormation_Ok in Hf as [-> Hlen].
  destruct (mergeParameters (Lit defaultTags) _ _) as [r|] eqn:Hmt;
    [|discriminate]. cbn [bind].
  destruct (mergeParameters_Ok_shape _ _ _ _ Hmt) as [mergedTags ->].
  cbn [fst snd List.length app].
  pose proof (add_git_tags_last p
                [with_ci_parameter isCiBuild ciBuildId merged] mergedTags)
    as Hgit.
  cbn [List.length app] in Hgit. rewrite Hgit.
  destruct (formatTagsForCloudFormation _ _) as [trecords|] eqn:Hft;
    [|discriminate]. cbn [bind].
  apply formatTagsForCloudFormation_Ok in Hft as [-> Hlent].
  destruct (generateStackName _ _ _ _ _) as [name|] eqn:Hname; [|discriminate].
  cbn [bind]. intros [= <-].
  exists isCiBuild, config, defaultParams, envParams, defaultTags, envTags,
    ciBuildId, merged, mergedTags, name.
  cbn [formattedParams formattedTags stackName template].
  unfold keys in Hlen, Hlent. rewrite length_map in Hlen, Hlent.
  cbn [props_of lookup list_lookup default from_option id] in Hlen, Hlent.
  repeat split; try assumption; try reflexivity.
  - by rewrite Hval.
  - destruct isCiBuild; [exact Hid|]. by injection Hid as <-.
Qed.


End RunFacts.

Module RunSpec.

Import MergeFacts ReaderFacts FormatFacts StackNameFacts StackNameMore
  BuildIdFacts BuildIdMore RunFacts.

Local Open Scope list_scope.







(** A process for the folder [cfn] of [DescriptorSpec.disk_project], on
    the branch [feature/x]. *)
Definition demo_process (ci environment : string) : process :=
  {| env := fun name =>
       if String.eqb name "INPUT_CI_BUILD" then Some ci
       else if String.eqb name "INPUT_ENVIRONMENT" then Some environment
       else if String.eqb name "GITHUB_REPOSITORY" then Some "acme/shop"
       else if String.eqb name "GITHUB_SHA" then Some "0123456789abcdef"
       else None;
     disk := DescriptorSpec.disk_project;
     git := Stdout "feature/x";
     random := BuildIdSpec.sevenths;
     now := "2024-01-01T00:00:00.000Z" |}.







(** X25.  A deployment run with an environment that does not match
    [^[a-zA-Z0-9-]+$] or has more than 50 characters fails - also when
    [validateInputs] accepts the environment, as it does for names with
    an underscore and for names of 51 to 100 characters. *)
Theorem invalid_environment_fails_run (p : process) :
  parseBooleanInput (VStr (ci_build_of p)) = Ok false ->
  valid_component (environment_of p) = false ->
  exists msg,
    run p = Failed msg /\ startsWith msg "Action failed: " = true.
Proof.
  intros Hci Henv. unfold run.
  destruct (run_try p) as [v|e] eqn:Hrun.
  - exfalso. apply run_try_Ok_inv in Hrun
      as (ci & config & dp & ep & dt & et & id & merged & mergedTags & name
          & Hci' & _ & _ & _ & _ & _ & _ & _ & _ & _ & _ & _ & _ & _ & Hname
          & _).
    rewrite Hci in Hci'. injection Hci' as <-.
    apply generateStackName_Ok_inv in Hname
      as (project & sp & ci & suffix & _ & _ & [= <-] & _ & _ & _ & _
          & [= <-] & Hv).
    congruence.
  - eexists. split; [reflexivity|]. apply prefix_append.
Qed.

Lemma invalid_environment_fails_run_witness :
  validateInputs (VStr "cfn") false (VStr "dev_eu") = Ok []
  /\ exists msg,
       run (demo_process "false" "dev_eu") = Failed msg
       /\ startsWith msg "Action failed: " = true.
Proof.
  split; [reflexivity|].
  apply (invalid_environment_fails_run (demo_process "false" "dev_eu"));
    reflexivity.
Defined.

(** X26.  The tags of a run that succeeds hold the six tags of the run -
    the first eight characters of the commit, the actor, the time, the
    workflow, and the two parts of [owner/repository], each ["unknown"]
    when it is not known - and there are at most 50 tags in all. *)
Theorem run_git_tags (p : process) (v : run_values) :
  run_try p = Ok v ->
  let parts := split (env_or p "GITHUB_REPOSITORY" "unknown") "/"%char in
  Forall (fun r => r ∈ formattedTags v)
    [ {| Key := "GitCommit";
         Value := Some (String.substring 0 8
                          (env_or p "GITHUB_SHA" "unknown")) |};
      {| Key := "GitLastModifiedBy";
         Value := Some (env_or p "GITHUB_ACTOR" "unknown") |};
      {| Key := "GitLastModifiedAt"; Value := Some (now p) |};
      {| Key := "GitFile";
         Value := Some (env_or p "GITHUB_WORKFLOW" "unknown") |};
      {| Key := "GitOrg"; Value := Some (or_unknown (parts !! 0)) |};
      {| Key := "GitRepo"; Value := Some (or_unknown (parts !! 1)) |} ]
  /\ List.length (formattedTags v) <= 50.
Proof.
  intros Hrun parts.
  apply run_try_Ok_inv in Hrun
    as (ci & config & dp & ep & dt & et & id & merged & mergedTags & name
        & _ & _ & _ & _ & _ & _ & _ & _ & _ & _ & _ & _ & Htags & Hlen & _).
  rewrite Htags. split; [|by rewrite length_map].
  assert (forall k s, (k, VStr s) ∈ git_tagged p mergedTags ->
            {| Key := k; Value := Some s |}
            ∈ map tag_of (git_tagged p mergedTags)) as Hrec.
  { intros k s Hin. apply list_elem_of_fmap. by exists (k, VStr s). }
  unfold git_tagged in *. fold parts in Hrec |- *.
  repeat constructor; apply Hrec;
    repeat first [ apply elem_of_set_prop
                 | apply elem_of_set_prop_ne; [|discriminate] ].
Qed.

Lemma run_git_tags_witness :
  exists v,
    run_try (demo_process "false" "dev") = Ok v
    /\ {| Key := "GitCommit"; Value := Some "01234567" |} ∈ formattedTags v
    /\ {| Key := "GitOrg"; Value := Some "acme" |} ∈ formattedTags v
    /\ {| Key := "GitFile"; Value := Some "unknown" |} ∈ formattedTags v.
Proof.
  eexists. split; [reflexivity|].
  destruct (run_git_tags (demo_process "false" "dev") _ eq_refl) as [H _].
  inversion H as [|? ? H1 H']; subst. inversion H' as [|? ? _ H'']; subst.
  inversion H'' as [|? ? _ H3]; subst. inversion H3 as [|? ? H4 H5]; subst.
  inversion H5 as [|? ? H6 _]; subst.
  split; [exact H1|]. split; [exact H6|exact H4].
Defined.

(** The name classes of the two checks on the environment. *)
Lemma name_unit_is_environment_unit l :
  forallb name_unit l = true ->
  forallb (fun c => name_unit c || (unit_of c =? 95)%nat) l = true.
Proof.
  induction l as [|c l IH]; [reflexivity|]. cbn [forallb].
  intros [-> Hl]%andb_prop. by rewrite IH.
Qed.

(** X27.  [validateInputs] is the weaker of the two checks on the
    environment: with a folder that it accepts, it accepts every
    environment that name generation accepts - one that matches
    [^[a-zA-Z0-9-]+$] and has at most 50 characters - without a warning
    in deployment mode, and with the warning that the environment is
    ignored in CI mode. *)
Theorem naming_environment_passes_input_check (folder : value)
    (environment : string) :
  is_Ok (validateInputs folder true (VStr "")) = true ->
  valid_component environment = true ->
  validateInputs folder false (VStr environment) = Ok []
  /\ validateInputs folder true (VStr environment)
     = Ok ["Environment input is ignored when ci-build is true"].
Proof.
  intros Hfolder Henv. unfold validateInputs in *.
  destruct (non_blank_string folder) as [f|]; [|discriminate].
  destruct (includes f ".." || includes f "~" || startsWith f "/");
    [discriminate|].
  destruct (255 <? String.length f)%nat; [discriminate|].
  apply valid_component_spec in Henv as [Hre Hlen].
  pose proof (trim_valid environment Hre) as Htrim.
  destruct (validNameRegex_units environment Hre) as [Hne Hall].
  assert (non_blank_string (VStr environment) = Some environment) as ->.
  { unfold non_blank_string. rewrite Htrim.
    destruct environment; [congruence|]. reflexivity. }
  rewrite Htrim. apply Nat.ltb_ge in Hlen.
  assert ((100 <? String.length environment)%nat = false) as ->
    by (apply Nat.ltb_ge; lia).
  assert (environmentNameRegex environment = true) as ->.
  { unfold environmentNameRegex.
    pose proof (name_unit_is_environment_unit _ Hall) as Hu.
    destruct (units environment) eqn:E; [|exact Hu].
    destruct environment; [congruence|discriminate E]. }
  cbn [negb andb bind truthy].
  destruct environment as [|c environment]; [congruence|].
  cbn [falsy_string negb]. apply String.eqb_neq in Hne.
  rewrite Hne. split; reflexivity.
Qed.

Lemma naming_environment_passes_input_check_witness :
  validateInputs (VStr "cfn") false (VStr "sb-prod-us-east-1") = Ok []
  /\ validateInputs (VStr "cfn") true (VStr "sb-prod-us-east-1")
     = Ok ["Environment input is ignored when ci-build is true"].
Proof.
  apply naming_environment_passes_input_check; reflexivity.
Defined.

End RunSpec.

(** ** The action inputs *)

Module InputSpec.
Import SanitizeFacts.

Local Open Scope list_scope.

Lemma white_space_toLowerCase c :
  is_white_space (toLowerCase_any_unit c) = is_white_space c.
Proof. by_cases_on c. Qed.

Lemma trimStart_toLowerCase l :
  trimStart_units (map toLowerCase_any_unit l)
  = map toLowerCase_any_unit (trimStart_units l).
Proof.
  induction l as [|c l IH]; [reflexivity|]. cbn [map trimStart_units].
  rewrite white_space_toLowerCase. by destruct (is_white_space c).
Qed.

Lemma trimEnd_toLowerCase l :
  trimEnd_units (map toLowerCase_any_unit l)
  = map toLowerCase_any_unit (trimEnd_units l).
Proof.
  induction l as [|c l IH]; [reflexivity|]. cbn [map trimEnd_units].
  rewrite IH. destruct (trimEnd_units l); cbn [map]; [|reflexivity].
  rewrite white_space_toLowerCase. by destruct (is_white_space c).
Qed.

(** [s.toLowerCase().trim()] is [s.trim().toLowerCase()]. *)
Lemma trim_toLowerCase s : trim (toLowerCase s) = toLowerCase (trim s).
Proof.
  unfold trim, toLowerCase.
  by rewrite !units_of_units, trimStart_toLowerCase, trimEnd_toLowerCase.
Qed.

(** X28.  [parseBooleanInput] takes the empty input for [false], but an
    input of white space only is not the empty input: it is refused with
    the error that quotes it. *)
Theorem blank_boolean_input_is_refused (s : string) :
  s <> "" -> trim s = "" ->
  parseBooleanInput (VStr "") = Ok false
  /\ parseBooleanInput (VStr s)
     = Throw (Error ("Invalid boolean value for ci-build: " +:+ s
                     +:+ ". Must be 'true' or 'false'")).
Proof.
  intros Hne Hblank. split; [reflexivity|]. unfold parseBooleanInput.
  destruct s as [|c s]; [congruence|]. cbn [truthy falsy_string negb].
  cbv zeta. rewrite trim_toLowerCase, Hblank. reflexivity.
Qed.

Lemma blank_boolean_input_is_refused_witness :
  parseBooleanInput (VStr "") = Ok false
  /\ parseBooleanInput (VStr "  ")
     = Throw (Error "Invalid boolean value for ci-build:   . Must be 'true' or 'false'").
Proof.
  apply (blank_boolean_input_is_refused "  "); [discriminate|reflexivity].
Defined.

End InputSpec.
